(** * Research-paper analyzer (app.py): chunker, response formatter,
      inference call and session state.

    A shallow embedding of the pure parts of [app.py] together with the
    properties its specification states about them.

    Python values are modelled as follows.
    - [str] is a list of Unicode code points ([pystr := list N]); ASCII
      literals are written as Rocq strings through [lit], the two emoji of
      the source by their code points.
    - [int] is [Z].
    - A [while] loop that may not terminate runs on fuel and returns
      [None] when the fuel is used up.
    - The network and the PDF library are oracles: their outcomes are
      inputs of the functions that call them. *)

From Stdlib Require Import String Ascii DecimalString.
From Stdlib Require Import ZArith NArith Bool Lia List.
Import ListNotations.

Local Open Scope Z_scope.

(** ** Python strings *)

Module Py.

Definition char := N.
Definition pystr := list char.

(** An ASCII literal of the source. *)
Definition lit (s : string) : pystr := map N_of_ascii (list_ascii_of_string s).

(** [str.isspace] on one code point: the code points for which CPython's
    [Py_UNICODE_ISSPACE] holds. [str.split()] and [str.strip()] both use
    it. *)
Definition isspace (c : char) : bool :=
  (((0x09 <=? c) && (c <=? 0x0D)) ||
   ((0x1C <=? c) && (c <=? 0x20)) ||
   (c =? 0x85) || (c =? 0xA0) || (c =? 0x1680) ||
   ((0x2000 <=? c) && (c <=? 0x200A)) ||
   (c =? 0x2028) || (c =? 0x2029) || (c =? 0x202F) ||
   (c =? 0x205F) || (c =? 0x3000))%N.

(** Truthiness of a string: [if s:] *)
Definition truthy (s : pystr) : bool :=
  match s with [] => false | _ :: _ => true end.

Fixpoint dropwhile (p : char -> bool) (s : pystr) : pystr :=
  match s with
  | [] => []
  | c :: s' => if p c then dropwhile p s' else s
  end.

Definition lstrip (s : pystr) : pystr := dropwhile isspace s.
Definition rstrip (s : pystr) : pystr := rev (dropwhile isspace (rev s)).

(** [s.strip()] *)
Definition strip (s : pystr) : pystr := rstrip (lstrip s).

(** [s.split()] without argument: the maximal runs of non-whitespace code
    points, in order. [cur] is the run being read. *)
Fixpoint split_ws (cur s : pystr) : list pystr :=
  match s with
  | [] => match cur with [] => [] | _ => [cur] end
  | c :: s' =>
      if isspace c
      then match cur with
           | [] => split_ws [] s'
           | _ => cur :: split_ws [] s'
           end
      else split_ws (cur ++ [c]) s'
  end.

Definition split (s : pystr) : list pystr := split_ws [] s.

(** [s.split(sep)] for a separator of one code point: every separator
    ends a field, empty fields are kept, the result is never empty. *)
Fixpoint split_on_aux (sep : char) (cur s : pystr) : list pystr :=
  match s with
  | [] => [cur]
  | c :: s' =>
      if (c =? sep)%N
      then cur :: split_on_aux sep [] s'
      else split_on_aux sep (cur ++ [c]) s'
  end.

Definition split_on (sep : char) (s : pystr) : list pystr :=
  split_on_aux sep [] s.

(** [sep.join(l)] *)
Fixpoint join (sep : pystr) (l : list pystr) : pystr :=
  match l with
  | [] => []
  | [x] => x
  | x :: l' => x ++ sep ++ join sep l'
  end.

(** [s.startswith(p)] *)
Fixpoint startswith (s p : pystr) : bool :=
  match p, s with
  | [], _ => true
  | _ :: _, [] => false
  | a :: p', b :: s' => (a =? b)%N && startswith s' p'
  end.

(** [p in s] *)
Fixpoint contains (p s : pystr) : bool :=
  startswith s p ||
  match s with
  | [] => false
  | _ :: s' => contains p s'
  end.

(** [a == b] on strings *)
Fixpoint str_eqb (a b : pystr) : bool :=
  match a, b with
  | [], [] => true
  | x :: a', y :: b' => (x =? y)%N && str_eqb a' b'
  | _, _ => false
  end.

(** [len(l)] *)
Definition len {A} (l : list A) : Z := Z.of_nat (length l).

(** An index of a slice, resolved against the length [n]: a negative
    index counts from the end, and the result is clamped to [0..n]. *)
Definition slice_index (n k : Z) : Z :=
  if k <? 0 then Z.max (k + n) 0 else Z.min k n.

(** [l[i:j]] *)
Definition slice {A} (l : list A) (i j : Z) : list A :=
  let start := slice_index (len l) i in
  let stop := slice_index (len l) j in
  firstn (Z.to_nat (stop - start)) (skipn (Z.to_nat start) l).

(** [str(n)] for an [int]. *)
Definition str_of_int (n : Z) : pystr :=
  lit (NilZero.string_of_int (Z.to_int n)).

Section Upper.
(** The full upper-case mapping of a code point outside ASCII (the
    Unicode case table of the interpreter, one code point may map to
    several, as U+00DF does). *)
Variable toupper_full : char -> pystr.

Definition toupper (c : char) : pystr :=
  if (c <? 128)%N
  then (if (97 <=? c)%N && (c <=? 122)%N then [(c - 32)%N] else [c])
  else toupper_full c.

(** [s.upper()]: code point by code point. *)
Definition upper (s : pystr) : pystr := flat_map toupper s.
End Upper.

(** A case table that leaves every code point outside ASCII unchanged; it
    is never consulted on ASCII text. *)
Definition no_case_table : char -> pystr := fun c => [c].

End Py.

Import Py.

(** ** The chunker: [split_text] *)

(** The [while] loop of [split_text]. [i] is the loop index, [chunks] the
    list built so far; one unit of fuel is one test of the loop
    condition. *)
Fixpoint split_text_loop (fuel : nat) (words : list pystr)
    (chunk_size overlap : Z) (i : Z) (chunks : list pystr)
    : option (list pystr) :=
  match fuel with
  | O => None
  | S fuel' =>
      if i <? len words then
        let chunk := join (lit " ") (slice words i (i + chunk_size)) in
        let chunks' := chunks ++ [chunk] in
        let i' := i + (chunk_size - overlap) in
        if i' >=? len words then Some chunks'
        else split_text_loop fuel' words chunk_size overlap i' chunks'
      else Some chunks
  end.

(** [split_text(text, chunk_size, overlap)] with [fuel] loop tests. *)
Definition split_text_fuel (fuel : nat) (text : pystr)
    (chunk_size overlap : Z) : option (list pystr) :=
  if negb (truthy text) then Some []
  else
    let words := split text in
    match words with
    | [] => Some []
    | _ => split_text_loop fuel words chunk_size overlap 0 []
    end.

(** [split_text]: one loop test per word is always enough when the loop
    index advances, so [None] stands for a run that does not return. *)
Definition split_text (text : pystr) (chunk_size overlap : Z)
    : option (list pystr) :=
  split_text_fuel (length (split text)) text chunk_size overlap.

(** The defaults of the signature. *)
Definition default_chunk_size : Z := 800.
Definition default_overlap : Z := 100.

(** [ceil(a / b)] for [b > 0]. *)
Definition ceil_div (a b : Z) : Z := - ((- a) / b).

(** ** The response formatter: [format_response] *)

(** The five keys of the [sections] dictionary. *)
Inductive section : Set :=
  | KEY_CONCEPT
  | MATHEMATICAL_FORMULATION
  | MATHEMATICAL_INTUITION
  | PRACTICAL_IMPLICATIONS
  | SUMMARY.

Definition section_name (s : section) : pystr :=
  match s with
  | KEY_CONCEPT => lit "KEY CONCEPT"
  | MATHEMATICAL_FORMULATION => lit "MATHEMATICAL FORMULATION"
  | MATHEMATICAL_INTUITION => lit "MATHEMATICAL INTUITION"
  | PRACTICAL_IMPLICATIONS => lit "PRACTICAL IMPLICATIONS"
  | SUMMARY => lit "SUMMARY"
  end.

(** The keys in the order the dictionary literal inserts them, which is
    the order [sections.items()] yields them. *)
Definition all_sections : list section :=
  [KEY_CONCEPT; MATHEMATICAL_FORMULATION; MATHEMATICAL_INTUITION;
   PRACTICAL_IMPLICATIONS; SUMMARY].

Definition section_eqb (a b : section) : bool :=
  match a, b with
  | KEY_CONCEPT, KEY_CONCEPT
  | MATHEMATICAL_FORMULATION, MATHEMATICAL_FORMULATION
  | MATHEMATICAL_INTUITION, MATHEMATICAL_INTUITION
  | PRACTICAL_IMPLICATIONS, PRACTICAL_IMPLICATIONS
  | SUMMARY, SUMMARY => true
  | _, _ => false
  end.

(** The dictionary: every key is always present. *)
Definition sections := section -> pystr.

Definition initial_sections : sections := fun _ => [].

(** [sections[k] = v] *)
Definition set_section (d : sections) (k : section) (v : pystr) : sections :=
  fun k' => if section_eqb k k' then v else d k'.

Definition newline : char := 10%N.

Definition placeholder : pystr :=
  lit "*Information not specified in response*".

(** ["## 📊 Research Paper Analysis\n\n"] *)
Definition report_title : pystr :=
  lit "## " ++ [0x1F4CA%N] ++ lit " Research Paper Analysis"
    ++ [newline; newline].

(** [f"**❌ {raw}**"] *)
Definition error_report (raw : pystr) : pystr :=
  lit "**" ++ [0x274C%N] ++ lit " " ++ raw ++ lit "**".

(** [f"### {section}\n{body}\n\n"] *)
Definition section_block (s : section) (body : pystr) : pystr :=
  lit "### " ++ section_name s ++ [newline] ++ body ++ [newline; newline].

(** The test that sends [raw] to the error branch. *)
Definition is_error_message (raw : pystr) : bool :=
  startswith raw (lit "Error:") || startswith raw (lit "API Error:").

Section Formatter.
Variable toupper_full : char -> pystr.

(** The [if]/[elif] chain that looks for a section header in a
    stripped, non-empty line. *)
Definition section_header (line : pystr) : option section :=
  let line_upper := upper toupper_full line in
  if contains (lit "KEY CONCEPT") line_upper
     || startswith line (lit "1.")
  then Some KEY_CONCEPT
  else if contains (lit "MATHEMATICAL FORMULATION") line_upper
          || startswith line (lit "2.")
  then Some MATHEMATICAL_FORMULATION
  else if contains (lit "MATHEMATICAL INTUITION") line_upper
          || startswith line (lit "3.")
  then Some MATHEMATICAL_INTUITION
  else if contains (lit "PRACTICAL IMPLICATIONS") line_upper
          || startswith line (lit "4.")
  then Some PRACTICAL_IMPLICATIONS
  else if contains (lit "SUMMARY") line_upper
          || startswith line (lit "5.")
  then Some SUMMARY
  else None.

(** The state of the scanning loop: [current_section] and
    [sections]. *)
Definition scan_state : Type := option section * sections.

(** One iteration of [for line in lines]. *)
Definition scan_line (st : scan_state) (line0 : pystr) : scan_state :=
  let line := strip line0 in
  if negb (truthy line) then st
  else
    match section_header line with
    | Some s => (Some s, snd st)
    | None =>
        match fst st with
        | Some cur =>
            if truthy (snd st cur)
            then (fst st,
                  set_section (snd st) cur (snd st cur ++ lit " " ++ line))
            else (fst st, set_section (snd st) cur line)
        | None => st
        end
    end.

Definition scan_lines (lines : list pystr) (st : scan_state) : scan_state :=
  fold_left scan_line lines st.

(** The dictionary after the scanning loop. *)
Definition parse_sections (raw : pystr) : sections :=
  snd (scan_lines (split_on newline raw) (None, initial_sections)).

(** One iteration of [for section, content in sections.items()]. *)
Definition render_section (raw : pystr) (content : sections)
    (formatted : pystr) (s : section) : pystr :=
  if truthy (content s) && truthy (strip (content s))
  then formatted ++ section_block s (strip (content s))
  else if truthy (strip raw)
  then formatted ++ section_block s placeholder
  else formatted.

Definition format_response (raw : pystr) : pystr :=
  if is_error_message raw then error_report raw
  else
    fold_left (render_section raw (parse_sections raw))
      all_sections report_title.
End Formatter.

(** ** The inference call: [check_model_ready] and [query_ollama] *)

Definition MODEL_NAME : pystr := lit "paper-analyzer".

(** The value that [model.get("name", "")] gives for one listed model,
    as far as the test [MODEL_NAME in name] can tell values apart: a
    string; a list or an object, of which only the strings among its
    elements, or its keys, can be equal to [MODEL_NAME]; or a number, a
    boolean or null, on which the test raises [TypeError]. A model
    without a "name" entry has the name [Name_str []]. *)
Inductive name_value : Type :=
  | Name_str (s : pystr)
  | Name_collection (members : list pystr)
  | Name_scalar.

(** [MODEL_NAME in name]: [None] when it raises. *)
Definition model_name_in (name : name_value) : option bool :=
  match name with
  | Name_str s => Some (contains MODEL_NAME s)
  | Name_collection members => Some (existsb (str_eqb MODEL_NAME) members)
  | Name_scalar => None
  end.

(** [any(MODEL_NAME in name for name in model_names)]: the names are
    tested in order, the first match ends the test, and so does the
    first name on which the test raises. *)
Fixpoint any_model_name (model_names : list name_value) : option bool :=
  match model_names with
  | [] => Some false
  | name :: rest =>
      match model_name_in name with
      | Some true => Some true
      | Some false => any_model_name rest
      | None => None
      end
  end.

(** What [requests.get(OLLAMA_LIST_URL)] and the decoding of its body do.
    [model_names] is the list built by
    [[model.get("name", "") for model in models]], [None] when building
    it raises: the body is not JSON, is not an object, or its "models"
    entry is not a list of objects. *)
Inductive tags_reply : Type :=
  | Tags_raises
  | Tags_response (status_code : Z)
      (model_names : option (list name_value)).

Definition check_model_ready (r : tags_reply) : bool :=
  match r with
  | Tags_raises => false
  | Tags_response status_code model_names =>
      if status_code =? 200 then
        match model_names with
        | Some names =>
            match any_model_name names with
            | Some true => true
            | Some false => false
            | None => false
            end
        | None => false
        end
      else false
  end.

(** What [response.json()] followed by [result.get("response", ...)]
    does: it raises with a message, or the body is an object whose
    "response" entry may be missing. *)
Inductive json_body : Type :=
  | Json_raises (msg : pystr)
  | Json_object (response : option pystr).

(** What [requests.post(OLLAMA_GENERATE_URL, ...)] does. *)
Inductive post_reply : Type :=
  | Post_Timeout
  | Post_ConnectionError
  | Post_raises (msg : pystr)
  | Post_response (status_code : Z) (text : pystr) (json : json_body).

(** The inference server as seen by one call of [query_ollama]. *)
Record server : Type := {
  list_models : tags_reply;
  generate : pystr -> post_reply
}.

Definition not_ready_message : pystr :=
  lit "Error: AI model is not ready yet. Please wait a moment and try again.".

Definition timeout_message : pystr :=
  lit "Error: Request timeout - the AI service is taking too long to respond.".

Section Inference.
(** [os.getenv('OLLAMA_URL', 'http://localhost:11434')] *)
Variable OLLAMA_BASE_URL : pystr.

Definition connection_message : pystr :=
  lit "Error: Cannot connect to AI service at " ++ OLLAMA_BASE_URL
    ++ lit ". Please check if the backend is running.".

Definition api_error_message (status_code : Z) (text : pystr) : pystr :=
  lit "API Error: " ++ str_of_int status_code ++ lit " - " ++ text.

Definition query_ollama (srv : server) (prompt : pystr) : pystr :=
  if negb (check_model_ready (list_models srv)) then not_ready_message
  else
    match generate srv prompt with
    | Post_response status_code text json =>
        if status_code =? 200 then
          match json with
          | Json_object (Some response) => response
          | Json_object None => lit "No response from model."
          | Json_raises msg => lit "Error: " ++ msg
          end
        else api_error_message status_code text
    | Post_Timeout => timeout_message
    | Post_ConnectionError => connection_message
    | Post_raises msg => lit "Error: " ++ msg
    end.
End Inference.

Definition default_base_url : pystr := lit "http://localhost:11434".

(** The three ways the inference call fails. *)
Definition inference_failure (r : post_reply) : Prop :=
  match r with
  | Post_Timeout | Post_ConnectionError => True
  | Post_response status_code _ _ => status_code <> 200
  | Post_raises _ => False
  end.

(** ** The session: [extract_text_from_pdf] and the state part of [main] *)

(** What [PyPDF2.PdfReader] and [page.extract_text()] do: they raise, or
    every page gives a text or nothing. *)
Inductive pdf_reply : Type :=
  | Pdf_raises (msg : pystr)
  | Pdf_pages (pages : list (option pystr)).

Definition extract_text_from_pdf (uploaded_file : pdf_reply) : pystr :=
  match uploaded_file with
  | Pdf_raises _ => []
  | Pdf_pages pages =>
      strip
        (fold_left
           (fun text extracted =>
              match extracted with
              | Some e => if truthy e then text ++ e ++ [newline] else text
              | None => text
              end)
           pages [])
  end.

(** [st.session_state] *)
Record session_state : Type := {
  chunks : list pystr;
  processed : bool;
  model_ready : bool
}.

Definition initial_session : session_state :=
  {| chunks := []; processed := false; model_ready := false |}.

(** The button that triggered the rerun of the script. *)
Inductive button : Type :=
  | No_button
  | Process_Paper
  | Analyze (question : pystr)
  | Generate_Summary
  | Generate_Quiz.

(** One user action: one run of [main]. *)
Record action : Type := {
  clicked : button;
  uploaded_file : option pdf_reply;
  backend : server
}.

(** The readiness check at the top of [main]. *)
Definition refresh_model_ready (st : session_state) (a : action)
    : session_state :=
  if negb (model_ready st) then
    if check_model_ready (list_models (backend a))
    then {| chunks := chunks st; processed := processed st;
            model_ready := true |}
    else st
  else st.

(** The effect of one run of [main] on the session state; [None] when
    the run does not return. The three analysis buttons only render. *)
Definition main (st : session_state) (a : action) : option session_state :=
  let st := refresh_model_ready st a in
  match clicked a with
  | Process_Paper =>
      match uploaded_file a with
      | Some f =>
          let text := extract_text_from_pdf f in
          if truthy text && (len text >? 100) then
            match split_text text default_chunk_size default_overlap with
            | Some cs =>
                Some {| chunks := cs; processed := true;
                        model_ready := model_ready st |}
            | None => None
            end
          else Some st
      | None => Some st
      end
  | _ => Some st
  end.

(** The session after a sequence of actions. *)
Fixpoint run_session (st : session_state) (acts : list action)
    : option session_state :=
  match acts with
  | [] => Some st
  | a :: acts' =>
      match main st a with
      | Some st' => run_session st' acts'
      | None => None
      end
  end.

(** The invariant of the session state. *)
Definition session_invariant (st : session_state) : Prop :=
  processed st = true -> chunks st <> [].

(** ** Vocabulary of the properties *)

(** A word, as [split] returns it: not empty and free of whitespace. *)
Definition nonspace (c : char) : bool := negb (isspace c).

Definition is_word (w : pystr) : Prop :=
  w <> [] /\ forallb nonspace w = true.

(** The chunk that the loop of [split_text] builds at index [i]. *)
Definition chunk_at (words : list pystr) (chunk_size i : Z) : pystr :=
  join (lit " ") (slice words i (i + chunk_size)).

(** [k] chunks, taken at [i], [i + step], [i + 2 * step], ... *)
Fixpoint windows (k : nat) (words : list pystr) (chunk_size step i : Z)
    : list pystr :=
  match k with
  | O => []
  | S k' =>
      chunk_at words chunk_size i
        :: windows k' words chunk_size step (i + step)
  end.

(** The word lists of the chunks put together again: the first chunk
    whole, every later chunk without its first [overlap] words. *)
Definition reassemble (overlap : nat) (chunks : list pystr) : list pystr :=
  match chunks with
  | [] => []
  | c :: rest => split c ++ concat (map (fun c' => skipn overlap (split c')) rest)
  end.

(** What a section holds after the lines [ls] were added to [content]. *)
Definition accumulate (content : pystr) (ls : list pystr) : pystr :=
  fold_left (fun c l => if truthy c then c ++ lit " " ++ l else l) ls content.

(** What the scanning loop keeps true of every section: it does not
    start with whitespace. *)
Definition clean (x : pystr) : Prop :=
  match x with [] => True | c :: _ => isspace c = false end.

(** The ordinal that announces a section. *)
Definition section_ordinal (s : section) : pystr :=
  match s with
  | KEY_CONCEPT => lit "1."
  | MATHEMATICAL_FORMULATION => lit "2."
  | MATHEMATICAL_INTUITION => lit "3."
  | PRACTICAL_IMPLICATIONS => lit "4."
  | SUMMARY => lit "5."
  end.

(** No label is recognized in the stripped line: it does not contain a
    label name in any letter case and does not start with an ordinal. *)
Definition unlabelled (tbl : char -> pystr) (l : pystr) : Prop :=
  forall s,
    contains (section_name s) (upper tbl (strip l)) = false /\
    startswith (strip l) (section_ordinal s) = false.

(** A line that the scanning loop does not take for a header. *)
Definition plain_line (tbl : char -> pystr) (l : pystr) : Prop :=
  section_header tbl (strip l) = None.

(** In [lines], section [s] has the content line [c]: a header line of
    [s] is followed, before the next header line, by the line [c], which
    is not blank. *)
Definition has_content (tbl : char -> pystr) (lines : list pystr)
    (s : section) (c : pystr) : Prop :=
  exists pre h mid post,
    lines = pre ++ h :: mid ++ c :: post /\
    section_header tbl (strip h) = Some s /\
    Forall (plain_line tbl) (mid ++ [c]) /\
    strip c <> [].

(** The output in which every section shows its own content. *)
Definition all_contents (content : sections) : pystr :=
  report_title
    ++ concat (map (fun s => section_block s (strip (content s))) all_sections).

(** The output in which every section shows the placeholder. *)
Definition all_placeholders : pystr :=
  report_title ++ concat (map (fun s => section_block s placeholder) all_sections).

(** ** Sample inputs *)

(** The document "word1 word2 ... word<n>". *)
Definition numbered_words (n : nat) : pystr :=
  join (lit " ")
    (map (fun i => lit "word" ++ str_of_int (Z.of_nat i)) (seq 1 n)).

(** A response that names the five labels and nothing else. *)
Definition headers_only : pystr :=
  join [newline]
    [lit "KEY CONCEPT"; lit "MATHEMATICAL FORMULATION";
     lit "MATHEMATICAL INTUITION"; lit "PRACTICAL IMPLICATIONS";
     lit "SUMMARY"].

(** A response with every label on a line of its own and one line of
    content after it. *)
Definition sectioned_response : pystr :=
  join [newline]
    [lit "1. KEY CONCEPT"; lit "Attention weighs tokens.";
     lit "2. MATHEMATICAL FORMULATION"; lit "softmax(QK/d)V";
     lit "3. MATHEMATICAL INTUITION"; lit "Similar keys score high.";
     lit "4. PRACTICAL IMPLICATIONS"; lit "Translation.";
     lit "5. SUMMARY"; lit "Attention suffices."].

Definition sectioned_content (s : section) : pystr :=
  match s with
  | KEY_CONCEPT => lit "Attention weighs tokens."
  | MATHEMATICAL_FORMULATION => lit "softmax(QK/d)V"
  | MATHEMATICAL_INTUITION => lit "Similar keys score high."
  | PRACTICAL_IMPLICATIONS => lit "Translation."
  | SUMMARY => lit "Attention suffices."
  end.

(** A response without any label. *)
Definition plain_response : pystr :=
  join [newline] [lit "The paper studies attention."; lit "It works."].

(** A server on which the model is listed and the generation request is
    answered with the given status and body. *)
Definition answering_server (status_code : Z) (text : pystr) : server :=
  {| list_models := Tags_response 200 (Some [Name_str (lit "paper-analyzer:latest")]);
     generate := fun _ => Post_response status_code text (Json_raises []) |}.

(** A server on which the generation request times out. *)
Definition stalled_server : server :=
  {| list_models := Tags_response 200 (Some [Name_str (lit "paper-analyzer:latest")]);
     generate := fun _ => Post_Timeout |}.

(** A PDF of one page whose text has more than 100 characters. *)
Definition one_page_pdf : pdf_reply :=
  Pdf_pages
    [Some (lit "Attention mechanisms let a model weigh every token of its input against every other token of that same input.  ")].

(** A click on "Process Paper" with that PDF uploaded. *)
Definition process_one_page : action :=
  {| clicked := Process_Paper;
     uploaded_file := Some one_page_pdf;
     backend := stalled_server |}.

(** ** Further vocabulary: the rest of [main] and of the helpers *)

(** [sum(len(chunk.split()) for chunk in st.session_state.chunks)], the
    word count that [main] shows in its caption. *)
Definition total_words (chunks : list pystr) : Z :=
  fold_left (fun acc chunk => acc + len (split chunk)) chunks 0.

(** The test that opens the analysis tabs:
    [st.session_state.get("processed", False) and st.session_state.chunks]. *)
Definition shows_analysis (st : session_state) : bool :=
  processed st && match chunks st with [] => false | _ :: _ => true end.

(** ["\n\n".join(st.session_state.chunks[:k])], the context that the
    three analysis buttons put into their prompts ([k] is 3, 5 and 4). *)
Definition analysis_context (k : Z) (chunks : list pystr) : pystr :=
  join [newline; newline] (slice chunks 0 k).

(** The words of one page of a PDF. *)
Definition page_words (page : option pystr) : list pystr :=
  match page with
  | Some e => split e
  | None => []
  end.

(** A string without whitespace at either end. *)
Definition tidy (x : pystr) : Prop := clean x /\ clean (rev x).

(** What the output shows under a label whose section holds [content]. *)
Definition shown_body (content : pystr) : pystr :=
  if truthy content then content else placeholder.

(** The five blocks of the output, in the order of the dictionary. *)
Definition layout (content : sections) : pystr :=
  report_title
    ++ concat (map (fun s => section_block s (shown_body (content s)))
                 all_sections).

(** The generation request was answered with status 200 and a body that
    decodes to an object. *)
Definition answered (r : post_reply) : Prop :=
  exists text response, r = Post_response 200 text (Json_object response).

(** A server on which the model is listed and the answer has no
    "response" entry. *)
Definition silent_server : server :=
  {| list_models := Tags_response 200 (Some [Name_str (lit "paper-analyzer:latest")]);
     generate := fun _ => Post_response 200 (lit "{}") (Json_object None) |}.

(** A server that does not answer the listing request. *)
Definition unreachable_server : server :=
  {| list_models := Tags_raises; generate := fun _ => Post_ConnectionError |}.

(** A PDF of two pages and a page without text between them. *)
Definition three_page_pdf : pdf_reply :=
  Pdf_pages [Some (lit " Attention is all "); None; Some (lit "you need. ")].

(** A PDF that cannot be read. *)
Definition broken_pdf : pdf_reply := Pdf_raises (lit "EOF marker not found").

(** A click on "Process Paper" with the unreadable PDF uploaded. *)
Definition process_broken : action :=
  {| clicked := Process_Paper;
     uploaded_file := Some broken_pdf;
     backend := unreachable_server |}.

(** A session in which a paper was processed and the model seen ready. *)
Definition processed_session : session_state :=
  {| chunks := [lit "old paper"]; processed := true; model_ready := true |}.

(** The session after the sample page was processed. *)
Definition one_page_session : session_state :=
  {| chunks :=
       [lit "Attention mechanisms let a model weigh every token of its input against every other token of that same input."];
     processed := true;
     model_ready := true |}.

(** ** Vocabulary of the readiness check *)

(** The name has the model name in it: a string with ["paper-analyzer"]
    somewhere inside, or a list or object with it as a member. *)
Definition names_model (name : name_value) : Prop :=
  (exists a b, name = Name_str (a ++ MODEL_NAME ++ b)) \/
  (exists members, name = Name_collection members /\ In MODEL_NAME members).

(** The name can be tested and has not the model name in it. *)
Definition names_other_model (name : name_value) : Prop :=
  (exists s, name = Name_str s /\ forall a b, s <> a ++ MODEL_NAME ++ b) \/
  (exists members,
     name = Name_collection members /\ ~ In MODEL_NAME members).

(** A listing in which a null name comes before the model's name, and
    one in which it comes after it. *)
Definition null_name_first : tags_reply :=
  Tags_response 200
    (Some [Name_scalar; Name_str (lit "paper-analyzer:latest")]).

Definition null_name_last : tags_reply :=
  Tags_response 200
    (Some [Name_str (lit "llama3"); Name_str (lit "paper-analyzer:latest");
           Name_scalar]).

(** A server that answers the generation request with status 500. *)
Definition overloaded_server : server :=
  answering_server 500 (lit "overloaded").

(** * Properties *)

(** ** Facts about the string primitives *)

Section StringFacts.

Lemma dropwhile_nil_iff (p : char -> bool) (s : pystr) :
  dropwhile p s = [] <-> forallb p s = true.
Proof.
  induction s as [|c s IH]; simpl.
  - tauto.
  - destruct (p c); simpl; [exact IH | split; discriminate].
Qed.

Lemma dropwhile_head (p : char -> bool) (s : pystr) c r :
  dropwhile p s = c :: r -> p c = false.
Proof.
  induction s as [|a s IH]; simpl; [discriminate|].
  destruct (p a) eqn:E; [exact IH|].
  intros H; injection H as -> _; exact E.
Qed.

Lemma dropwhile_decompose (p : char -> bool) (s : pystr) :
  exists pre, s = pre ++ dropwhile p s.
Proof.
  induction s as [|a s [pre IH]]; simpl.
  - exists []; reflexivity.
  - destruct (p a).
    + exists (a :: pre); simpl; congruence.
    + exists []; reflexivity.
Qed.

Lemma forallb_rev (p : char -> bool) (s : pystr) :
  forallb p (rev s) = forallb p s.
Proof.
  induction s as [|a s IH]; simpl; [reflexivity|].
  rewrite forallb_app, IH; simpl.
  rewrite andb_true_r; apply andb_comm.
Qed.

(** The stripped string keeps the front of the left-stripped one. *)
Lemma strip_prefix_lstrip (s : pystr) :
  exists tail, lstrip s = strip s ++ tail.
Proof.
  unfold strip, rstrip.
  destruct (dropwhile_decompose isspace (rev (lstrip s))) as [pre E].
  exists (rev pre).
  rewrite <- rev_app_distr, <- E, rev_involutive; reflexivity.
Qed.

Lemma strip_head (s : pystr) c r :
  strip s = c :: r -> isspace c = false.
Proof.
  intros E. destruct (strip_prefix_lstrip s) as [tail H].
  rewrite E in H; simpl in H.
  exact (dropwhile_head _ _ _ _ H).
Qed.

Lemma strip_nil_iff (s : pystr) :
  strip s = [] <-> forallb isspace s = true.
Proof.
  rewrite <- dropwhile_nil_iff. fold (lstrip s).
  unfold strip, rstrip. split.
  - intros H. apply (f_equal (@rev char)) in H.
    rewrite rev_involutive in H; simpl in H.
    apply dropwhile_nil_iff in H. rewrite forallb_rev in H.
    destruct (lstrip s) as [|c r] eqn:E; [reflexivity|].
    apply dropwhile_head in E. simpl in H. rewrite E in H. discriminate.
  - intros H. rewrite H. reflexivity.
Qed.

Lemma split_ws_nil_iff (cur s : pystr) :
  split_ws cur s = [] <-> cur = [] /\ forallb isspace s = true.
Proof.
  revert cur; induction s as [|c s IH]; intros cur; simpl.
  - destruct cur; split; try tauto; try discriminate.
    intros [H _]; discriminate.
  - destruct (isspace c); simpl.
    + destruct cur.
      * apply IH.
      * split; [discriminate | intros [H _]; discriminate].
    + rewrite IH. split; [|intros [_ H]; discriminate].
      intros [H _]. destruct cur; discriminate.
Qed.

Lemma split_nil_iff (s : pystr) :
  split s = [] <-> forallb isspace s = true.
Proof.
  unfold split. rewrite split_ws_nil_iff. tauto.
Qed.

Lemma split_ws_words (cur s : pystr) :
  forallb nonspace cur = true -> Forall is_word (split_ws cur s).
Proof.
  revert cur; induction s as [|c s IH]; intros cur Hcur; simpl.
  - destruct cur; constructor; [|constructor].
    split; [discriminate | exact Hcur].
  - destruct (isspace c) eqn:E.
    + destruct cur.
      * apply IH; reflexivity.
      * constructor; [split; [discriminate | exact Hcur]|].
        apply IH; reflexivity.
    + apply IH. rewrite forallb_app, Hcur; simpl.
      unfold nonspace; rewrite E; reflexivity.
Qed.

Lemma split_words (s : pystr) : Forall is_word (split s).
Proof. apply split_ws_words; reflexivity. Qed.

Lemma split_ws_app_word (w cur s : pystr) :
  forallb nonspace w = true ->
  split_ws cur (w ++ s) = split_ws (cur ++ w) s.
Proof.
  revert cur; induction w as [|c w IH]; intros cur H; simpl.
  - rewrite app_nil_r; reflexivity.
  - simpl in H. apply andb_true_iff in H as [Hc Hw].
    unfold nonspace in Hc. apply negb_true_iff in Hc. rewrite Hc.
    rewrite IH by exact Hw. rewrite <- app_assoc. reflexivity.
Qed.

(** The words of a chunk are the words it was joined from. *)
Lemma split_join (ws : list pystr) :
  Forall is_word ws -> split (join (lit " ") ws) = ws.
Proof.
  unfold split.
  induction ws as [|w ws IH]; intros H; [reflexivity|].
  inversion H as [|? ? [Hne Hw] Hws]; subst.
  destruct ws as [|w' ws].
  - simpl. rewrite <- (app_nil_r w) at 1.
    rewrite split_ws_app_word by exact Hw. simpl.
    destruct w; [contradiction|reflexivity].
  - change (join (lit " ") (w :: w' :: ws))
      with (w ++ lit " " ++ join (lit " ") (w' :: ws)).
    rewrite split_ws_app_word by exact Hw.
    change (lit " " ++ join (lit " ") (w' :: ws))
      with (32%N :: join (lit " ") (w' :: ws)).
    simpl app at 1.
    change (split_ws w (32%N :: join (lit " ") (w' :: ws)))
      with (match w with
            | [] => split_ws [] (join (lit " ") (w' :: ws))
            | _ => w :: split_ws [] (join (lit " ") (w' :: ws))
            end).
    rewrite (IH Hws). destruct w; [contradiction|reflexivity].
Qed.

End StringFacts.

(** ** Facts about ceilings and slices *)

Lemma ceil_div_spec (a b : Z) :
  0 < b -> (ceil_div a b - 1) * b < a <= ceil_div a b * b.
Proof.
  intros Hb. unfold ceil_div.
  pose proof (Z.div_mod (- a) b ltac:(lia)) as E.
  pose proof (Z.mod_pos_bound (- a) b Hb) as B.
  nia.
Qed.

Lemma ceil_div_unique (a b q : Z) :
  0 < b -> (q - 1) * b < a <= q * b -> ceil_div a b = q.
Proof.
  intros Hb Hq. pose proof (ceil_div_spec a b Hb). nia.
Qed.

Lemma ceil_div_small (a b : Z) : 0 < a <= b -> ceil_div a b = 1.
Proof. intros H. apply ceil_div_unique; lia. Qed.

Lemma ceil_div_step (a b : Z) :
  0 < b -> ceil_div a b = 1 + ceil_div (a - b) b.
Proof.
  intros Hb. apply ceil_div_unique; [exact Hb|].
  pose proof (ceil_div_spec (a - b) b Hb). nia.
Qed.

Lemma ceil_div_pos (a b : Z) : 0 < a -> 0 < b -> 1 <= ceil_div a b.
Proof. intros Ha Hb. pose proof (ceil_div_spec a b Hb). nia. Qed.

Lemma ceil_div_le (a b : Z) : 0 <= a -> 0 < b -> ceil_div a b <= a.
Proof. intros Ha Hb. pose proof (ceil_div_spec a b Hb). nia. Qed.

(** A slice with a start inside the list and a length that is not
    negative is a [firstn] of a [skipn]. *)
Lemma slice_firstn_skipn {A} (l : list A) (i n : Z) :
  0 <= i -> 0 <= n ->
  slice l i (i + n) = firstn (Z.to_nat n) (skipn (Z.to_nat i) l).
Proof.
  intros Hi Hn. unfold slice, slice_index, len.
  destruct (Z.ltb_spec i 0); [lia|].
  destruct (Z.ltb_spec (i + n) 0); [lia|].
  destruct (Z.le_gt_cases i (Z.of_nat (length l))) as [Hle|Hgt].
  - rewrite (Z.min_l i) by lia.
    destruct (Z.le_gt_cases (i + n) (Z.of_nat (length l))).
    + rewrite Z.min_l by lia. f_equal. lia.
    + rewrite Z.min_r by lia.
      rewrite (firstn_all2 (n := Z.to_nat n)) by (rewrite length_skipn; lia).
      apply firstn_all2. rewrite length_skipn; lia.
  - rewrite !Z.min_r by lia. rewrite Z.sub_diag. simpl.
    rewrite skipn_all2 by lia. rewrite firstn_nil. reflexivity.
Qed.

(** ** Facts about the loop of [split_text] *)

Lemma windows_length k words cs step i :
  length (windows k words cs step i) = k.
Proof.
  revert i; induction k as [|k IH]; intros i; simpl; [|rewrite IH];
    reflexivity.
Qed.

Lemma windows_nth k words cs step i (j : nat) :
  (j < k)%nat ->
  nth_error (windows k words cs step i) j
  = Some (chunk_at words cs (i + Z.of_nat j * step)).
Proof.
  revert i j; induction k as [|k IH]; intros i j Hj; [lia|].
  destruct j as [|j]; cbn [windows nth_error].
  - do 2 f_equal. lia.
  - rewrite IH by lia. do 2 f_equal. lia.
Qed.

(** When the index advances, the loop returns, and what it returns are
    the windows from the current index on. *)
Lemma split_text_loop_windows (fuel : nat) words cs ov :
  0 < cs - ov ->
  forall i acc,
    i < len words -> len words - i <= Z.of_nat fuel ->
    split_text_loop fuel words cs ov i acc
    = Some (acc ++ windows (Z.to_nat (ceil_div (len words - i) (cs - ov)))
                     words cs (cs - ov) i).
Proof.
  intros Hs. induction fuel as [|fuel IH]; intros i acc Hi Hfuel; [lia|].
  cbn [split_text_loop].
  destruct (Z.ltb_spec i (len words)); [|lia].
  rewrite Z.geb_leb.
  destruct (Z.leb_spec (len words) (i + (cs - ov))) as [Hlast|Hmore].
  - rewrite ceil_div_small by lia. reflexivity.
  - rewrite IH by lia.
    rewrite (ceil_div_step (len words - i) (cs - ov)) by lia.
    replace (len words - i - (cs - ov)) with (len words - (i + (cs - ov)))
      by lia.
    pose proof (ceil_div_pos (len words - (i + (cs - ov))) (cs - ov)
                  ltac:(lia) Hs) as Hpos.
    rewrite Z2Nat.inj_add by lia.
    change (Z.to_nat 1) with 1%nat. cbn [Nat.add windows].
    rewrite <- app_assoc. reflexivity.
Qed.

(** When the index does not advance, the loop never returns. *)
Lemma split_text_loop_diverges (fuel : nat) words cs ov :
  cs - ov <= 0 ->
  forall i acc,
    i <= 0 -> 0 < len words ->
    split_text_loop fuel words cs ov i acc = None.
Proof.
  intros Hs. induction fuel as [|fuel IH]; intros i acc Hi Hn;
    [reflexivity|].
  cbn [split_text_loop].
  destruct (Z.ltb_spec i (len words)); [|lia].
  rewrite Z.geb_leb.
  destruct (Z.leb_spec (len words) (i + (cs - ov))); [lia|].
  apply IH; lia.
Qed.

(** [split_text] on a text with at least one word, for any fuel that
    allows one loop test per word. *)
Lemma split_text_fuel_windows (fuel : nat) text cs ov :
  0 < cs - ov -> split text <> [] ->
  (length (split text) <= fuel)%nat ->
  split_text_fuel fuel text cs ov
  = Some (windows (Z.to_nat (ceil_div (len (split text)) (cs - ov)))
            (split text) cs (cs - ov) 0).
Proof.
  intros Hs Hw Hfuel. unfold split_text_fuel.
  destruct text as [|c text]; [contradiction Hw; reflexivity|].
  cbn [truthy negb].
  destruct (split (c :: text)) as [|w ws] eqn:E; [contradiction|].
  rewrite split_text_loop_windows; unfold len in *; cbn [length] in *;
    try lia.
  rewrite Z.sub_0_r. reflexivity.
Qed.

Lemma split_text_fuel_blank (fuel : nat) text cs ov :
  forallb isspace text = true -> split_text_fuel fuel text cs ov = Some [].
Proof.
  intros H. unfold split_text_fuel.
  destruct (negb (truthy text)); [reflexivity|].
  apply split_nil_iff in H. rewrite H. reflexivity.
Qed.

Lemma split_text_windows text cs ov :
  0 < cs - ov -> split text <> [] ->
  split_text text cs ov
  = Some (windows (Z.to_nat (ceil_div (len (split text)) (cs - ov)))
            (split text) cs (cs - ov) 0).
Proof.
  intros Hs Hw. unfold split_text.
  apply split_text_fuel_windows; [exact Hs | exact Hw | lia].
Qed.

Lemma len_pos {A} (l : list A) : l <> [] -> 0 < len l.
Proof. destruct l; [contradiction|]. unfold len; cbn [length]; lia. Qed.

(** Without an advancing index, [split_text] does not return on a text
    that has a word, whatever the fuel. *)
Lemma split_text_fuel_diverges (fuel : nat) text cs ov :
  cs - ov <= 0 -> split text <> [] ->
  split_text_fuel fuel text cs ov = None.
Proof.
  intros Hs Hw. unfold split_text_fuel.
  destruct text as [|c text]; [contradiction Hw; reflexivity|].
  cbn [truthy negb].
  pose proof (len_pos _ Hw) as Hn.
  destruct (split (c :: text)) as [|w ws] eqn:E; [contradiction|].
  apply split_text_loop_diverges; [exact Hs | lia | exact Hn].
Qed.

Lemma Forall_firstn {A} (P : A -> Prop) n (l : list A) :
  Forall P l -> Forall P (firstn n l).
Proof.
  intros H. rewrite <- (firstn_skipn n l) in H.
  apply Forall_app in H. tauto.
Qed.

Lemma Forall_skipn {A} (P : A -> Prop) n (l : list A) :
  Forall P l -> Forall P (skipn n l).
Proof.
  intros H. rewrite <- (firstn_skipn n l) in H.
  apply Forall_app in H. tauto.
Qed.

Lemma firstn_add {A} (a b : nat) (l : list A) :
  firstn (a + b) l = firstn a l ++ firstn b (skipn a l).
Proof.
  revert l; induction a as [|a IH]; intros l; [reflexivity|].
  destruct l as [|x l]; cbn [Nat.add firstn skipn app].
  - rewrite firstn_nil; reflexivity.
  - rewrite IH; reflexivity.
Qed.

(** The words of the chunk taken at word index [i]. *)
Lemma chunk_at_split words w (i : nat) :
  Forall is_word words -> 0 <= w ->
  split (chunk_at words w (Z.of_nat i))
  = firstn (Z.to_nat w) (skipn i words).
Proof.
  intros Hw Hnonneg. unfold chunk_at.
  rewrite slice_firstn_skipn by lia. rewrite Nat2Z.id.
  apply split_join. apply Forall_firstn, Forall_skipn, Hw.
Qed.

(** The later chunks without their first [o] words are consecutive
    stretches of [w - o] words. *)
Lemma concat_windows_tails words w o (m i : nat) :
  Forall is_word words -> 0 <= o < w ->
  concat (map (fun c => skipn (Z.to_nat o) (split c))
            (windows m words w (w - o) (Z.of_nat i)))
  = firstn (m * Z.to_nat (w - o)) (skipn (i + Z.to_nat o) words).
Proof.
  intros Hw Ho. revert i; induction m as [|m IH]; intros i;
    [reflexivity|].
  cbn [windows map concat].
  replace (Z.of_nat i + (w - o)) with (Z.of_nat (i + Z.to_nat (w - o)))
    by lia.
  rewrite IH, chunk_at_split by (assumption || lia).
  rewrite skipn_firstn_comm, skipn_skipn.
  replace (Z.to_nat w - Z.to_nat o)%nat with (Z.to_nat (w - o)) by lia.
  replace (S m * Z.to_nat (w - o))%nat
    with (Z.to_nat (w - o) + m * Z.to_nat (w - o))%nat by lia.
  rewrite firstn_add, skipn_skipn.
  f_equal; do 2 f_equal; lia.
Qed.

(** The number of windows is the number of starts below the length. *)
Lemma windows_count_bounds (n s : Z) :
  0 < n -> 0 < s ->
  let k := Z.to_nat (ceil_div n s) in
  (1 <= k)%nat /\ (Z.of_nat k - 1) * s < n <= Z.of_nat k * s.
Proof.
  intros Hn Hs k. subst k.
  pose proof (ceil_div_pos n s Hn Hs).
  pose proof (ceil_div_spec n s Hs).
  rewrite Z2Nat.id by lia. split; [lia | assumption].
Qed.

(** The shape of the result of [split_text] on every text: chunk [j] is
    built from the [chunk_size] words that start at word
    [j * (chunk_size - overlap)], and there is a chunk for every start
    below the number of words. *)
Lemma split_text_shape text w o :
  0 <= o < w ->
  exists chunks,
    split_text text w o = Some chunks /\
    len chunks = ceil_div (len (split text)) (w - o) /\
    (forall j : nat, (j < length chunks)%nat ->
       Z.of_nat j * (w - o) < len (split text)) /\
    (forall (j : nat) c, nth_error chunks j = Some c ->
       (j < length chunks)%nat /\
       split c = firstn (Z.to_nat w)
                   (skipn (j * Z.to_nat (w - o)) (split text))).
Proof.
  intros Ho.
  destruct (split text) as [|w0 ws] eqn:E.
  - exists []. unfold split_text.
    rewrite split_text_fuel_blank by (apply split_nil_iff; exact E).
    split; [reflexivity|]. split; [reflexivity|]. split.
    + intros j Hj. cbn in Hj. lia.
    + intros j c H. destruct j; discriminate.
  - rewrite <- E.
    assert (Hne : split text <> []) by (rewrite E; discriminate).
    pose proof (len_pos _ Hne) as Hn.
    destruct (windows_count_bounds (len (split text)) (w - o) Hn
                ltac:(lia)) as [Hk1 Hk].
    eexists. split; [apply split_text_windows; [lia | exact Hne]|].
    unfold len at 1. rewrite windows_length.
    split; [lia|]. split.
    + intros j Hj. nia.
    + intros j c Hc.
      assert (Hj : (j < length (windows
                               (Z.to_nat (ceil_div (len (split text)) (w - o)))
                               (split text) w (w - o) 0))%nat)
        by (apply nth_error_Some; rewrite Hc; discriminate).
      rewrite windows_length in Hj. split; [exact Hj|].
      rewrite windows_nth in Hc by exact Hj. injection Hc as <-.
      replace (Z.of_nat j * (w - o))
        with (Z.of_nat (j * Z.to_nat (w - o)))
        by (rewrite Nat2Z.inj_mul, Z2Nat.id; lia).
      apply chunk_at_split; [apply split_words | lia].
Qed.

(** ** The chunker: count, sizes, overlap, coverage, termination *)

(** C1 as stated fails. Four words with a window of 4 and an overlap of
    1 give two chunks, where [ceil((4 - 1) / (4 - 1))] is 1; one word with
    the default window of 800 and overlap of 100 gives one chunk, where
    [ceil((1 - 100) / (800 - 100))] is 0. *)
Lemma chunk_count_formula_refuted :
  (len (split (lit "a b c d")) = 4 /\
   split_text (lit "a b c d") 4 1 = Some [lit "a b c d"; lit "d"] /\
   len [lit "a b c d"; lit "d"] <> ceil_div (4 - 1) (4 - 1)) /\
  (len (split (lit "hello")) = 1 /\
   split_text (lit "hello") 800 100 = Some [lit "hello"] /\
   len [lit "hello"] <> ceil_div (1 - 100) (800 - 100)).
Proof. repeat split; vm_compute; discriminate. Qed.

(** C1 (amended). For a text of [n > 0] words and [overlap < chunk_size],
    [split_text] returns exactly [ceil(n / (chunk_size - overlap))]
    chunks: one for every start index below [n]. *)
Theorem split_text_chunk_count (text : pystr) (w o : Z) :
  0 < len (split text) -> o < w ->
  exists chunks,
    split_text text w o = Some chunks /\
    len chunks = ceil_div (len (split text)) (w - o).
Proof.
  intros Hn Ho.
  assert (Hne : split text <> []) by (intros E; rewrite E in Hn; cbn in Hn; lia).
  eexists. split; [apply split_text_windows; [lia | exact Hne]|].
  unfold len at 1. rewrite windows_length.
  pose proof (ceil_div_pos _ (w - o) Hn ltac:(lia)). lia.
Qed.

Lemma split_text_chunk_count_witness :
  0 < len (split (lit "a b c d")) /\ 1 < 4 /\
  exists chunks,
    split_text (lit "a b c d") 4 1 = Some chunks /\
    len chunks = ceil_div (len (split (lit "a b c d"))) (4 - 1).
Proof.
  split; [reflexivity|]. split; [reflexivity|].
  apply (split_text_chunk_count (lit "a b c d") 4 1); reflexivity.
Defined.

(** The example of the specification: 1000 words with the default
    window of 800 and overlap of 100 give two chunks, the second of
    which starts at word 701 and holds the 300 words that are left. *)
Example thousand_words_two_chunks :
  match split_text (numbered_words 1000)
          default_chunk_size default_overlap with
  | Some [c1; c2] =>
      (length (split c1), hd_error (split c2), length (split c2))
  | _ => (O, None, O)
  end = (800%nat, Some (lit "word701"), 300%nat).
Proof. vm_compute. reflexivity. Qed.

(** C2 as stated fails: with a window of 3 and an overlap of 2 the text
    "a b c" gives the chunks "a b c", "b c" and "c"; the last two have
    fewer than 3 words, and they share one word, not two. *)
Lemma chunk_size_and_overlap_refuted :
  split_text (lit "a b c") 3 2 = Some [lit "a b c"; lit "b c"; lit "c"] /\
  length (split (lit "b c")) <> 3%nat /\
  length (split (lit "c")) <> 3%nat /\
  skipn (3 - 2) (split (lit "b c")) = split (lit "c") /\
  length (split (lit "c")) <> 2%nat.
Proof. repeat split; vm_compute; discriminate. Qed.

(** C2 (amended). For a non-empty text and word counts
    [overlap < chunk_size], chunk [j] holds the words from index
    [j * (chunk_size - overlap)] on, [chunk_size] of them or as many as
    are left: between 1 and [chunk_size] words. Of two consecutive
    chunks, the words of the earlier one after its first
    [chunk_size - overlap] are the first [overlap] words of the later
    one: [overlap] words, or as many as the later chunk has. *)
Theorem split_text_chunk_words (text : pystr) (w o : nat) :
  text <> [] -> (o < w)%nat ->
  exists chunks,
    split_text text (Z.of_nat w) (Z.of_nat o) = Some chunks /\
    (forall (j : nat) c, nth_error chunks j = Some c ->
       split c = firstn w (skipn (j * (w - o)) (split text)) /\
       length (split c) = Nat.min w (length (split text) - j * (w - o)) /\
       (1 <= length (split c) <= w)%nat) /\
    (forall (j : nat) c c',
       nth_error chunks j = Some c -> nth_error chunks (S j) = Some c' ->
       skipn (w - o) (split c) = firstn o (split c') /\
       length (firstn o (split c'))
       = Nat.min o (length (split text) - S j * (w - o))).
Proof.
  intros _ Ho.
  destruct (split_text_shape text (Z.of_nat w) (Z.of_nat o) ltac:(lia))
    as (chunks & Hrun & _ & Hstart & Hnth).
  replace (Z.to_nat (Z.of_nat w - Z.of_nat o)) with (w - o)%nat in Hnth
    by lia.
  rewrite Nat2Z.id in Hnth.
  assert (Hbelow : forall j, (j < length chunks)%nat ->
                             (j * (w - o) < length (split text))%nat).
  { intros j Hj. specialize (Hstart j Hj). unfold len in Hstart. nia. }
  exists chunks. split; [exact Hrun|]. split.
  - intros j c Hc. destruct (Hnth j c Hc) as [Hj Hsplit].
    specialize (Hbelow j Hj).
    split; [exact Hsplit|].
    assert (Hlen : length (split c)
                   = Nat.min w (length (split text) - j * (w - o)))
      by (rewrite Hsplit, length_firstn, length_skipn; reflexivity).
    split; [exact Hlen | lia].
  - intros j c c' Hc Hc'.
    destruct (Hnth j c Hc) as [_ Hsplit].
    destruct (Hnth (S j) c' Hc') as [_ Hsplit'].
    assert (Hov : firstn o (split c')
                  = firstn o (skipn (S j * (w - o)) (split text))).
    { rewrite Hsplit', firstn_firstn. f_equal. lia. }
    split.
    + rewrite Hov, Hsplit, skipn_firstn_comm, skipn_skipn.
      replace (w - (w - o))%nat with o by lia.
      replace (w - o + j * (w - o))%nat with (S j * (w - o))%nat by lia.
      reflexivity.
    + rewrite Hov, length_firstn, length_skipn. reflexivity.
Qed.

Lemma split_text_chunk_words_witness :
  lit "a b c" <> [] /\ (2 < 3)%nat /\
  exists chunks,
    split_text (lit "a b c") (Z.of_nat 3) (Z.of_nat 2) = Some chunks /\
    (forall (j : nat) c, nth_error chunks j = Some c ->
       split c = firstn 3 (skipn (j * (3 - 2)) (split (lit "a b c"))) /\
       length (split c)
       = Nat.min 3 (length (split (lit "a b c")) - j * (3 - 2)) /\
       (1 <= length (split c) <= 3)%nat) /\
    (forall (j : nat) c c',
       nth_error chunks j = Some c -> nth_error chunks (S j) = Some c' ->
       skipn (3 - 2) (split c) = firstn 2 (split c') /\
       length (firstn 2 (split c'))
       = Nat.min 2 (length (split (lit "a b c")) - S j * (3 - 2))).
Proof.
  split; [discriminate|]. split; [lia|].
  apply (split_text_chunk_words (lit "a b c") 3 2); [discriminate | lia].
Defined.

(** The coverage property for integer parameters. *)
Lemma reassemble_split_text text w o :
  0 <= o < w ->
  exists chunks,
    split_text text w o = Some chunks /\
    reassemble (Z.to_nat o) chunks = split text.
Proof.
  intros Ho.
  destruct (split text) as [|w0 ws] eqn:E.
  - exists []. split; [|reflexivity]. unfold split_text.
    apply split_text_fuel_blank, split_nil_iff, E.
  - rewrite <- E.
    assert (Hne : split text <> []) by (rewrite E; discriminate).
    pose proof (len_pos _ Hne) as Hn.
    destruct (windows_count_bounds (len (split text)) (w - o) Hn
                ltac:(lia)) as [Hk1 Hk].
    eexists. split; [apply split_text_windows; [lia | exact Hne]|].
    destruct (Z.to_nat (ceil_div (len (split text)) (w - o)))
      as [|k] eqn:Ek; [lia|].
    cbn [windows reassemble].
    change (0 + (w - o)) with (Z.of_nat 0 + (w - o)).
    replace (Z.of_nat 0 + (w - o)) with (Z.of_nat (Z.to_nat (w - o)))
      by lia.
    rewrite concat_windows_tails by (apply split_words || lia).
    pose proof (chunk_at_split (split text) w 0 (split_words text)
                  ltac:(lia)) as H0.
    cbn [Z.of_nat] in H0. rewrite H0, skipn_0.
    replace (Z.to_nat (w - o) + Z.to_nat o)%nat with (Z.to_nat w) by lia.
    rewrite <- firstn_add.
    apply firstn_all2. unfold len in *. nia.
Qed.

(** C3. For a non-empty text and word counts [overlap < chunk_size],
    the word lists of the chunks, the first one whole and every later
    one without its first [overlap] words, put together give back the
    word list of the text: every word once, in order. *)
Theorem split_text_covers_words (text : pystr) (w o : nat) :
  text <> [] -> (o < w)%nat ->
  exists chunks,
    split_text text (Z.of_nat w) (Z.of_nat o) = Some chunks /\
    reassemble o chunks = split text.
Proof.
  intros _ Ho.
  destruct (reassemble_split_text text (Z.of_nat w) (Z.of_nat o)
              ltac:(lia)) as (chunks & Hrun & Hre).
  rewrite Nat2Z.id in Hre. exists chunks. split; assumption.
Qed.

Lemma split_text_covers_words_witness :
  lit "a b c d e" <> [] /\ (1 < 3)%nat /\
  exists chunks,
    split_text (lit "a b c d e") (Z.of_nat 3) (Z.of_nat 1) = Some chunks /\
    reassemble 1 chunks = split (lit "a b c d e").
Proof.
  split; [discriminate|]. split; [lia|].
  apply (split_text_covers_words (lit "a b c d e") 3 1);
    [discriminate | lia].
Defined.

(** With a negative overlap the windows leave gaps, so the words between
    them are lost. *)
Example negative_overlap_leaves_gaps :
  split_text (lit "a b c d e") 2 (-1) = Some [lit "a b"; lit "d e"].
Proof. reflexivity. Qed.

(** C7. On the empty text and on a text of whitespace only,
    [split_text] returns the empty list, whatever the parameters. *)
Theorem split_text_blank (text : pystr) (w o : Z) :
  forallb isspace text = true -> split_text text w o = Some [].
Proof.
  intros H. unfold split_text. apply split_text_fuel_blank, H.
Qed.

Lemma split_text_blank_witness :
  forallb isspace [32; 9; 10; 0xA0; 32]%N = true /\
  split_text [32; 9; 10; 0xA0; 32]%N 800 100 = Some [].
Proof.
  split; [reflexivity|].
  apply (split_text_blank [32; 9; 10; 0xA0; 32]%N 800 100); reflexivity.
Defined.

(** C8. With [0 <= overlap < chunk_size] the run of [split_text]
    returns on every text: the loop index grows by
    [chunk_size - overlap > 0] at every turn, so one loop test per word of
    the text is enough, and more fuel does not change the result. *)
Theorem split_text_terminates (text : pystr) (w o : Z) :
  0 <= o < w ->
  exists chunks,
    split_text text w o = Some chunks /\
    forall fuel : nat,
      (length (split text) <= fuel)%nat ->
      split_text_fuel fuel text w o = Some chunks.
Proof.
  intros Ho.
  destruct (split text) as [|w0 ws] eqn:E.
  - exists []. unfold split_text.
    assert (Hb : forallb isspace text = true) by (apply split_nil_iff, E).
    split; [|intros fuel _]; apply split_text_fuel_blank, Hb.
  - rewrite <- E.
    assert (Hne : split text <> []) by (rewrite E; discriminate).
    eexists. split; [apply split_text_windows; [lia | exact Hne]|].
    intros fuel Hfuel.
    apply split_text_fuel_windows; [lia | exact Hne | exact Hfuel].
Qed.

Lemma split_text_terminates_witness :
  0 <= 100 < 800 /\
  exists chunks,
    split_text (lit "one two three") 800 100 = Some chunks /\
    forall fuel : nat,
      (length (split (lit "one two three")) <= fuel)%nat ->
      split_text_fuel fuel (lit "one two three") 800 100 = Some chunks.
Proof.
  split; [lia|].
  apply (split_text_terminates (lit "one two three") 800 100); lia.
Defined.

(** The precondition of C8 cannot be dropped: with
    [overlap >= chunk_size] no amount of fuel makes the run return on a
    text that has a word. *)
Lemma split_text_needs_advancing_index (text : pystr) (w o : Z) :
  w <= o -> split text <> [] ->
  forall fuel, split_text_fuel fuel text w o = None.
Proof.
  intros Ho Hne fuel. apply split_text_fuel_diverges; [lia | exact Hne].
Qed.

(** ** Facts about the scanning loop of [format_response] *)

Section FormatterFacts.
Variable tbl : char -> pystr.

Lemma section_header_nil : section_header tbl [] = None.
Proof. reflexivity. Qed.

Lemma truthy_false_iff (s : pystr) : truthy s = false <-> s = [].
Proof. destruct s; split; (reflexivity || discriminate). Qed.

Lemma scan_line_blank st l : strip l = [] -> scan_line tbl st l = st.
Proof. intros H. unfold scan_line. rewrite H. reflexivity. Qed.

(** A header line only sets [current_section]. *)
Lemma scan_line_header st h s :
  section_header tbl (strip h) = Some s ->
  scan_line tbl st h = (Some s, snd st).
Proof.
  intros H. unfold scan_line.
  destruct (strip h) as [|c r] eqn:E.
  - rewrite section_header_nil in H. discriminate.
  - cbn [truthy negb]. rewrite H. reflexivity.
Qed.

(** A line that is no header is added to the current section, if there
    is one. *)
Lemma scan_line_plain cur secs l :
  section_header tbl (strip l) = None -> strip l <> [] ->
  scan_line tbl (Some cur, secs) l
  = (Some cur, set_section secs cur (accumulate (secs cur) [strip l])).
Proof.
  intros H Hne. unfold scan_line.
  destruct (strip l) as [|c r] eqn:E; [contradiction|].
  cbn [truthy negb fst snd accumulate fold_left]. rewrite H.
  destruct (truthy (secs cur)); reflexivity.
Qed.

Lemma scan_line_no_section secs l :
  section_header tbl (strip l) = None ->
  scan_line tbl (None, secs) l = (None, secs).
Proof.
  intros H. unfold scan_line.
  destruct (negb (truthy (strip l))); [reflexivity|].
  rewrite H. reflexivity.
Qed.

Lemma section_eqb_refl s : section_eqb s s = true.
Proof. destruct s; reflexivity. Qed.

Lemma section_eqb_eq a b : section_eqb a b = true <-> a = b.
Proof. destruct a, b; split; (reflexivity || discriminate). Qed.

Lemma accumulate_app content ls ls' :
  accumulate content (ls ++ ls') = accumulate (accumulate content ls) ls'.
Proof. apply fold_left_app. Qed.

(** Lines without a header, read with a current section: the section
    receives the non-blank ones, stripped, in order. *)
Lemma scan_lines_plain cur body :
  Forall (fun l => section_header tbl (strip l) = None) body ->
  forall secs,
    fst (scan_lines tbl body (Some cur, secs)) = Some cur /\
    forall k,
      snd (scan_lines tbl body (Some cur, secs)) k
      = if section_eqb cur k
        then accumulate (secs cur) (filter truthy (map strip body))
        else secs k.
Proof.
  induction 1 as [|l body Hl Hbody IH]; intros secs.
  - split; [reflexivity|]. intros k. cbn.
    destruct (section_eqb cur k) eqn:E; [|reflexivity].
    apply section_eqb_eq in E. subst. reflexivity.
  - cbn [scan_lines fold_left map filter].
    destruct (strip l) as [|c r] eqn:E.
    + rewrite scan_line_blank by exact E. apply IH.
    + rewrite scan_line_plain by (rewrite E; (exact Hl || discriminate)).
      rewrite E. cbn [truthy].
      destruct (IH (set_section secs cur
                      (accumulate (secs cur) [c :: r]))) as [Hf Hs].
      fold (scan_lines tbl body
              (Some cur,
               set_section secs cur (accumulate (secs cur) [c :: r]))).
      split; [exact Hf|]. intros k. rewrite Hs.
      unfold set_section. rewrite section_eqb_refl.
      destruct (section_eqb cur k); reflexivity.
Qed.

(** Lines without a header, read before any header, are dropped. *)
Lemma scan_lines_no_section lines secs :
  Forall (fun l => section_header tbl (strip l) = None) lines ->
  scan_lines tbl lines (None, secs) = (None, secs).
Proof.
  induction 1 as [|l lines Hl _ IH]; [reflexivity|].
  cbn [scan_lines fold_left]. rewrite scan_line_no_section by exact Hl.
  exact IH.
Qed.

Lemma scan_lines_app l1 l2 st :
  scan_lines tbl (l1 ++ l2) st = scan_lines tbl l2 (scan_lines tbl l1 st).
Proof. apply fold_left_app. Qed.

(** What a section holds is only ever extended to the right. *)
Lemma scan_line_extends st l k :
  exists b, snd (scan_line tbl st l) k = snd st k ++ b.
Proof.
  unfold scan_line.
  destruct (negb (truthy (strip l))); [exists []; apply eq_sym, app_nil_r|].
  destruct (section_header tbl (strip l));
    [exists []; apply eq_sym, app_nil_r|].
  destruct st as [[cur|] secs]; cbn [fst snd];
    [|exists []; apply eq_sym, app_nil_r].
  unfold set_section.
  destruct (section_eqb cur k) eqn:E.
  - apply section_eqb_eq in E. subst k.
    destruct (secs cur) eqn:Ec; cbn [truthy snd]; rewrite section_eqb_refl.
    + exists (strip l). reflexivity.
    + exists (lit " " ++ strip l). reflexivity.
  - destruct (truthy (secs cur)); cbn [snd]; rewrite E;
      exists []; apply eq_sym, app_nil_r.
Qed.

Lemma scan_lines_extends lines st k :
  exists b, snd (scan_lines tbl lines st) k = snd st k ++ b.
Proof.
  revert st; induction lines as [|l lines IH]; intros st.
  - exists []. apply eq_sym, app_nil_r.
  - cbn [scan_lines fold_left].
    destruct (IH (scan_line tbl st l)) as [b Hb].
    destruct (scan_line_extends st l k) as [b' Hb'].
    exists (b' ++ b). unfold scan_lines in Hb.
    rewrite Hb, Hb', app_assoc. reflexivity.
Qed.

Lemma scan_line_clean st l :
  (forall k, clean (snd st k)) ->
  forall k, clean (snd (scan_line tbl st l) k).
Proof.
  intros H k. unfold scan_line.
  destruct (strip l) as [|c r] eqn:E; [apply H|].
  cbn [truthy negb].
  destruct (section_header tbl (c :: r)); [apply H|].
  destruct st as [[cur|] secs]; cbn [fst snd] in *; [|apply H].
  pose proof (H cur) as Hcur.
  unfold set_section.
  destruct (secs cur) as [|c0 r0] eqn:Ec; cbn [truthy snd];
    (destruct (section_eqb cur k); [|apply H]).
  + exact (strip_head _ _ _ E).
  + exact Hcur.
Qed.

Lemma scan_lines_clean lines st :
  (forall k, clean (snd st k)) ->
  forall k, clean (snd (scan_lines tbl lines st) k).
Proof.
  revert st; induction lines as [|l lines IH]; intros st H; [exact H|].
  cbn [scan_lines fold_left]. apply IH. apply scan_line_clean, H.
Qed.

Lemma clean_strip_nonempty (x : pystr) :
  clean x -> x <> [] -> strip x <> [].
Proof.
  intros Hc Hne Hs. apply strip_nil_iff in Hs.
  destruct x as [|c r]; [contradiction|].
  cbn in Hc, Hs. rewrite Hc in Hs. discriminate.
Qed.

End FormatterFacts.

(** ** The formatter: sections with content, placeholders, header lines *)

Section FormatterClaims.
Variable tbl : char -> pystr.

Lemma has_content_scanned lines s c st :
  has_content tbl lines s c ->
  (forall k, clean (snd st k)) ->
  strip (snd (scan_lines tbl lines st) s) <> [] /\
  exists a b, snd (scan_lines tbl lines st) s = a ++ strip c ++ b.
Proof.
  intros (pre & h & mid & post & -> & Hh & Hplain & Hc) Hclean.
  assert (Hparts : exists a b,
             snd (scan_lines tbl (pre ++ h :: mid ++ c :: post) st) s
             = a ++ strip c ++ b).
  { replace (pre ++ h :: mid ++ c :: post)
      with (pre ++ [h] ++ (mid ++ [c]) ++ post)
      by (cbn; rewrite <- app_assoc; reflexivity).
    rewrite (scan_lines_app tbl pre), (scan_lines_app tbl [h]),
      (scan_lines_app tbl (mid ++ [c]) post).
    set (st1 := scan_lines tbl pre st).
    change (scan_lines tbl [h] st1) with (scan_line tbl st1 h).
    rewrite (scan_line_header tbl st1 h s Hh).
    destruct (scan_lines_plain tbl s (mid ++ [c]) Hplain (snd st1))
      as [_ Hs].
    destruct (scan_lines_extends tbl post
                (scan_lines tbl (mid ++ [c]) (Some s, snd st1)) s)
      as [b Hb].
    rewrite Hb, Hs, section_eqb_refl.
    rewrite map_app, filter_app, accumulate_app. cbn [map filter].
    destruct (strip c) as [|x r] eqn:E; [contradiction|].
    set (A := accumulate (snd st1 s) (filter truthy (map strip mid))).
    cbn [truthy accumulate fold_left].
    destruct (truthy A).
    - exists (A ++ lit " "), b. rewrite <- !app_assoc. reflexivity.
    - exists [], b. reflexivity. }
  split; [|exact Hparts].
  apply clean_strip_nonempty; [apply scan_lines_clean, Hclean|].
  destruct Hparts as (a & b & ->).
  destruct (strip c); [contradiction|]. destruct a; discriminate.
Qed.

Lemma render_section_content raw content formatted s :
  strip (content s) <> [] ->
  render_section raw content formatted s
  = formatted ++ section_block s (strip (content s)).
Proof.
  intros H. unfold render_section.
  destruct (content s) as [|c r] eqn:E; [contradiction H; reflexivity|].
  destruct (strip (c :: r)); [contradiction|]. reflexivity.
Qed.

Lemma render_section_placeholder raw content formatted s :
  content s = [] -> strip raw <> [] ->
  render_section raw content formatted s
  = formatted ++ section_block s placeholder.
Proof.
  intros E H. unfold render_section. rewrite E. cbn [truthy andb].
  destruct (strip raw); [contradiction|]. reflexivity.
Qed.

Lemma parse_sections_no_header raw :
  Forall (plain_line tbl) (split_on newline raw) ->
  parse_sections tbl raw = initial_sections.
Proof.
  intros H. unfold parse_sections.
  rewrite scan_lines_no_section by exact H. reflexivity.
Qed.

(** C4 (amended). When the text is no error message and every one of
    the five labels has a header line that is followed, before the next
    header line, by a line that is not blank, the output shows under
    every label the content scanned for it and never the placeholder
    branch: that content is not empty and contains the line. *)
Theorem format_response_all_sections (raw : pystr)
    (content_line : section -> pystr) :
  is_error_message raw = false ->
  (forall s, has_content tbl (split_on newline raw) s (content_line s)) ->
  format_response tbl raw = all_contents (parse_sections tbl raw) /\
  forall s,
    strip (parse_sections tbl raw s) <> [] /\
    exists a b,
      parse_sections tbl raw s = a ++ strip (content_line s) ++ b.
Proof.
  intros Herr Hall.
  assert (Hs : forall s,
             strip (parse_sections tbl raw s) <> [] /\
             exists a b,
               parse_sections tbl raw s = a ++ strip (content_line s) ++ b).
  { intros s. unfold parse_sections.
    apply has_content_scanned; [apply Hall|]. intros k; exact I. }
  split; [|exact Hs].
  unfold format_response, all_contents. rewrite Herr.
  cbn [all_sections fold_left map concat].
  rewrite !render_section_content by apply Hs.
  rewrite <- !app_assoc, app_nil_r. reflexivity.
Qed.

(** The header test finds nothing exactly in the unlabelled lines. *)
Lemma section_header_none_iff (l : pystr) :
  section_header tbl (strip l) = None <-> unlabelled tbl l.
Proof.
  unfold section_header, unlabelled. split.
  - intros H s.
    destruct (contains (lit "KEY CONCEPT") _) eqn:C1,
             (startswith _ (lit "1.")) eqn:O1; try discriminate.
    destruct (contains (lit "MATHEMATICAL FORMULATION") _) eqn:C2,
             (startswith _ (lit "2.")) eqn:O2; try discriminate.
    destruct (contains (lit "MATHEMATICAL INTUITION") _) eqn:C3,
             (startswith _ (lit "3.")) eqn:O3; try discriminate.
    destruct (contains (lit "PRACTICAL IMPLICATIONS") _) eqn:C4,
             (startswith _ (lit "4.")) eqn:O4; try discriminate.
    destruct (contains (lit "SUMMARY") _) eqn:C5,
             (startswith _ (lit "5.")) eqn:O5; try discriminate.
    destruct s; split; assumption.
  - intros H.
    destruct (H KEY_CONCEPT) as [C1 O1].
    destruct (H MATHEMATICAL_FORMULATION) as [C2 O2].
    destruct (H MATHEMATICAL_INTUITION) as [C3 O3].
    destruct (H PRACTICAL_IMPLICATIONS) as [C4 O4].
    destruct (H SUMMARY) as [C5 O5].
    cbn [section_name section_ordinal] in *.
    rewrite C1, O1, C2, O2, C3, O3, C4, O4, C5, O5. reflexivity.
Qed.

(** C6 (amended). When the text is no error message, is not blank, and
    no label is recognized in any of its lines (no line contains a label
    name, no line starts with an ordinal), the output shows the
    placeholder under every one of the five labels. *)
Theorem format_response_no_labels (raw : pystr) :
  is_error_message raw = false ->
  strip raw <> [] ->
  (forall l, In l (split_on newline raw) -> unlabelled tbl l) ->
  format_response tbl raw = all_placeholders.
Proof.
  intros Herr Hraw Hplain.
  unfold format_response, all_placeholders. rewrite Herr.
  rewrite parse_sections_no_header
    by (apply Forall_forall; intros l Hl;
        apply section_header_none_iff, Hplain, Hl).
  cbn [all_sections fold_left map concat].
  rewrite !render_section_placeholder by (reflexivity || exact Hraw).
  rewrite <- !app_assoc, app_nil_r. reflexivity.
Qed.

(** C10. A line taken for a header of section [s] only makes [s] the
    current section: no section changes, whatever else the line holds.
    The lines after it that are no headers are what the section then
    receives: the non-blank ones, stripped, joined by single spaces
    after what the section held; every other section stays as it was. *)
Theorem header_line_text_discarded (st : scan_state) (h : pystr)
    (s : section) :
  section_header tbl (strip h) = Some s ->
  scan_line tbl st h = (Some s, snd st) /\
  forall body,
    Forall (plain_line tbl) body ->
    fst (scan_lines tbl (h :: body) st) = Some s /\
    forall k,
      snd (scan_lines tbl (h :: body) st) k
      = if section_eqb s k
        then accumulate (snd st s) (filter truthy (map strip body))
        else snd st k.
Proof.
  intros Hh. pose proof (scan_line_header tbl st h s Hh) as E.
  split; [exact E|]. intros body Hbody.
  cbn [scan_lines fold_left]. rewrite E.
  exact (scan_lines_plain tbl s body Hbody (snd st)).
Qed.

End FormatterClaims.

(** C4 as stated fails: a response that holds the five labels and no
    other line shows the placeholder under every one of them. *)
Lemma labels_without_content_refuted :
  (forall s, contains (section_name s) headers_only = true) /\
  is_error_message headers_only = false /\
  format_response no_case_table headers_only = all_placeholders.
Proof.
  split; [intros s; destruct s; reflexivity|].
  split; vm_compute; reflexivity.
Qed.

Lemma format_response_all_sections_witness :
  is_error_message sectioned_response = false /\
  (forall s, has_content no_case_table (split_on newline sectioned_response)
               s (sectioned_content s)) /\
  format_response no_case_table sectioned_response
  = all_contents (parse_sections no_case_table sectioned_response) /\
  forall s,
    strip (parse_sections no_case_table sectioned_response s) <> [] /\
    exists a b,
      parse_sections no_case_table sectioned_response s
      = a ++ strip (sectioned_content s) ++ b.
Proof.
  assert (H : forall s,
             has_content no_case_table
               (split_on newline sectioned_response) s (sectioned_content s)).
  { intros s. unfold has_content.
    destruct s.
    - exists [], (lit "1. KEY CONCEPT"), [],
        (skipn 2 (split_on newline sectioned_response)).
      repeat split; try reflexivity; try discriminate.
      repeat constructor.
    - exists (firstn 2 (split_on newline sectioned_response)),
        (lit "2. MATHEMATICAL FORMULATION"), [],
        (skipn 4 (split_on newline sectioned_response)).
      repeat split; try reflexivity; try discriminate.
      repeat constructor.
    - exists (firstn 4 (split_on newline sectioned_response)),
        (lit "3. MATHEMATICAL INTUITION"), [],
        (skipn 6 (split_on newline sectioned_response)).
      repeat split; try reflexivity; try discriminate.
      repeat constructor.
    - exists (firstn 6 (split_on newline sectioned_response)),
        (lit "4. PRACTICAL IMPLICATIONS"), [],
        (skipn 8 (split_on newline sectioned_response)).
      repeat split; try reflexivity; try discriminate.
      repeat constructor.
    - exists (firstn 8 (split_on newline sectioned_response)),
        (lit "5. SUMMARY"), [], [].
      repeat split; try reflexivity; try discriminate.
      repeat constructor. }
  split; [reflexivity|]. split; [exact H|].
  apply (format_response_all_sections no_case_table sectioned_response
           sectioned_content); [reflexivity | exact H].
Defined.

(** C6 as stated fails: in the empty response no label is recognized,
    and the output is the title alone, without any placeholder. *)
Lemma blank_response_refuted :
  (forall l, In l (split_on newline []) -> unlabelled no_case_table l) /\
  format_response no_case_table [] = report_title /\
  contains placeholder (format_response no_case_table []) = false.
Proof.
  split; [|split; vm_compute; reflexivity].
  intros l [<-|[]] s. destruct s; split; reflexivity.
Qed.

Lemma format_response_no_labels_witness :
  is_error_message plain_response = false /\
  strip plain_response <> [] /\
  (forall l, In l (split_on newline plain_response) ->
             unlabelled no_case_table l) /\
  format_response no_case_table plain_response = all_placeholders.
Proof.
  assert (H : forall l, In l (split_on newline plain_response) ->
                        unlabelled no_case_table l).
  { intros l [<-|[<-|[]]] s; destruct s; split; reflexivity. }
  split; [reflexivity|]. split; [discriminate|]. split; [exact H|].
  apply (format_response_no_labels no_case_table plain_response);
    [reflexivity | discriminate | exact H].
Defined.

Lemma header_line_text_discarded_witness :
  section_header no_case_table
    (strip (lit "1. KEY CONCEPT: Attention weighs tokens."))
  = Some KEY_CONCEPT /\
  scan_line no_case_table (None, initial_sections)
    (lit "1. KEY CONCEPT: Attention weighs tokens.")
  = (Some KEY_CONCEPT, initial_sections) /\
  forall body,
    Forall (plain_line no_case_table) body ->
    fst (scan_lines no_case_table
           (lit "1. KEY CONCEPT: Attention weighs tokens." :: body)
           (None, initial_sections)) = Some KEY_CONCEPT /\
    forall k,
      snd (scan_lines no_case_table
             (lit "1. KEY CONCEPT: Attention weighs tokens." :: body)
             (None, initial_sections)) k
      = if section_eqb KEY_CONCEPT k
        then accumulate [] (filter truthy (map strip body))
        else [].
Proof.
  split; [reflexivity|].
  apply (header_line_text_discarded no_case_table (None, initial_sections)
           (lit "1. KEY CONCEPT: Attention weighs tokens.") KEY_CONCEPT).
  reflexivity.
Defined.

(** ** The inference call: failures become error reports *)

Lemma is_error_message_api code text :
  is_error_message (api_error_message code text) = true.
Proof. reflexivity. Qed.

Lemma is_error_message_connection base :
  is_error_message (connection_message base) = true.
Proof. reflexivity. Qed.

Lemma api_error_message_length code text :
  (length text < length (api_error_message code text))%nat.
Proof.
  unfold api_error_message. rewrite !length_app.
  change (length (lit "API Error: ")) with 11%nat. lia.
Qed.

(** C5 as stated fails: the strings returned for non-200 answers carry
    the status and the body of the answer, so no fixed list of strings
    holds them all. *)
Lemma error_strings_not_a_fixed_set :
  ~ exists fixed : list pystr,
      forall srv prompt,
        inference_failure (generate srv prompt) ->
        In (query_ollama default_base_url srv prompt) fixed.
Proof.
  intros [fixed H].
  set (body := repeat 97%N (list_max (map (@length char) fixed))).
  assert (Hin : In (api_error_message 500 body) fixed).
  { apply (H (answering_server 500 body) []). cbn. discriminate. }
  assert (Hle : (length (api_error_message 500 body)
                 <= list_max (map (@length char) fixed))%nat).
  { pose proof (proj1 (list_max_le (map (@length char) fixed) _)
                  (le_n _)) as Hall.
    rewrite Forall_forall in Hall. apply Hall.
    apply in_map, Hin. }
  pose proof (api_error_message_length 500 body) as Hlt.
  unfold body in Hlt at 1. rewrite repeat_length in Hlt.
  fold body in Hlt. lia.
Qed.

(** C5 (amended). When the inference call fails by a timeout, a
    connection failure or a status other than 200, [query_ollama] returns
    a string and [format_response] turns it into the error report, not
    into the five-section layout. The string is the not-ready message
    when the readiness check fails; otherwise it is the timeout message
    for a timeout, the connection message (which names the configured
    base URL) for a connection failure, and
    ["API Error: <status> - <body>"] with the status and the body of the
    reply for a status other than 200. *)
Theorem query_ollama_failure_reported (tbl : char -> pystr)
    (base : pystr) (srv : server) (prompt : pystr) :
  inference_failure (generate srv prompt) ->
  (check_model_ready (list_models srv) = false ->
   query_ollama base srv prompt = not_ready_message) /\
  (check_model_ready (list_models srv) = true ->
   (generate srv prompt = Post_Timeout ->
    query_ollama base srv prompt = timeout_message) /\
   (generate srv prompt = Post_ConnectionError ->
    query_ollama base srv prompt = connection_message base) /\
   (forall status_code text json,
      generate srv prompt = Post_response status_code text json ->
      query_ollama base srv prompt = api_error_message status_code text)) /\
  format_response tbl (query_ollama base srv prompt)
  = error_report (query_ollama base srv prompt).
Proof.
  intros Hfail. unfold query_ollama.
  destruct (check_model_ready (list_models srv)); cbn [negb].
  2: { split; [reflexivity|]. split; [discriminate | reflexivity]. }
  split; [discriminate|].
  destruct (generate srv prompt) as [| |msg|status_code text json];
    cbn [inference_failure] in Hfail.
  - split; [|reflexivity]. intros _.
    split; [reflexivity|]. split; discriminate.
  - split.
    + intros _. split; [discriminate|]. split; [reflexivity | discriminate].
    + unfold format_response. rewrite is_error_message_connection.
      reflexivity.
  - contradiction.
  - destruct (Z.eqb_spec status_code 200) as [E|E]; [contradiction|].
    split.
    + intros _. split; [discriminate|]. split; [discriminate|].
      intros status_code' text' json' H. injection H as <- <- _.
      reflexivity.
    + unfold format_response. rewrite is_error_message_api. reflexivity.
Qed.

Lemma query_ollama_failure_reported_witness :
  inference_failure (generate overloaded_server []) /\
  (check_model_ready (list_models overloaded_server) = false ->
   query_ollama default_base_url overloaded_server [] = not_ready_message) /\
  (check_model_ready (list_models overloaded_server) = true ->
   (generate overloaded_server [] = Post_Timeout ->
    query_ollama default_base_url overloaded_server [] = timeout_message) /\
   (generate overloaded_server [] = Post_ConnectionError ->
    query_ollama default_base_url overloaded_server []
    = connection_message default_base_url) /\
   (forall status_code text json,
      generate overloaded_server [] = Post_response status_code text json ->
      query_ollama default_base_url overloaded_server []
      = api_error_message status_code text)) /\
  format_response no_case_table
    (query_ollama default_base_url overloaded_server [])
  = error_report (query_ollama default_base_url overloaded_server []).
Proof.
  split; [cbn; discriminate|].
  apply (query_ollama_failure_reported no_case_table default_base_url
           overloaded_server []).
  cbn. discriminate.
Defined.

(** The reply of the sample server, as the user gets it. *)
Example overloaded_server_reply :
  check_model_ready (list_models overloaded_server) = true /\
  generate overloaded_server []
  = Post_response 500 (lit "overloaded") (Json_raises []) /\
  query_ollama default_base_url overloaded_server []
  = lit "API Error: 500 - overloaded".
Proof. repeat split. Qed.

(** What the user sees for a failed call, on two samples. *)
Example http_500_report :
  format_response no_case_table
    (query_ollama default_base_url
       (answering_server 500 (lit "overloaded")) [])
  = lit "**" ++ [0x274C%N] ++ lit " API Error: 500 - overloaded**".
Proof. reflexivity. Qed.

Example timeout_report :
  format_response no_case_table
    (query_ollama default_base_url stalled_server [])
  = lit "**" ++ [0x274C%N]
      ++ lit " Error: Request timeout - the AI service is taking too long to respond.**".
Proof. reflexivity. Qed.

(** ** The session: processed implies chunks *)

Lemma refresh_model_ready_chunks st a :
  chunks (refresh_model_ready st a) = chunks st /\
  processed (refresh_model_ready st a) = processed st.
Proof.
  unfold refresh_model_ready.
  destruct (negb (model_ready st)); [|tauto].
  destruct (check_model_ready _); cbn; tauto.
Qed.

(** Extracted text that is not empty has a word: it was stripped. *)
Lemma extract_text_has_word f :
  extract_text_from_pdf f <> [] -> split (extract_text_from_pdf f) <> [].
Proof.
  destruct f as [msg|pages]; cbn [extract_text_from_pdf];
    [intros H; contradiction H; reflexivity|].
  set (all := fold_left _ pages []).
  intros Hne Hsplit. apply split_nil_iff in Hsplit.
  destruct (strip all) as [|c r] eqn:E; [contradiction Hne; reflexivity|].
  apply strip_head in E. cbn in Hsplit. rewrite E in Hsplit. discriminate.
Qed.

(** With the default parameters a text that has a word gives a chunk. *)
Lemma split_text_default_nonempty text :
  split text <> [] ->
  exists cs,
    split_text text default_chunk_size default_overlap = Some cs /\ cs <> [].
Proof.
  intros Hne. eexists.
  split; [apply split_text_windows; [reflexivity | exact Hne]|].
  pose proof (ceil_div_pos (len (split text))
                (default_chunk_size - default_overlap)
                (len_pos _ Hne) ltac:(reflexivity)) as Hk.
  destruct (Z.to_nat _) eqn:E; [lia | discriminate].
Qed.

(** The run returns the state it refreshed, which has the invariant. *)
Ltac state_kept H := eexists; split; [reflexivity | exact H].

(** One run of [main] returns and keeps the invariant. *)
Lemma main_keeps_invariant st a :
  session_invariant st ->
  exists st', main st a = Some st' /\ session_invariant st'.
Proof.
  intros Hinv.
  destruct (refresh_model_ready_chunks st a) as [Hc Hp].
  assert (Hinv' : session_invariant (refresh_model_ready st a))
    by (unfold session_invariant; rewrite Hc, Hp; exact Hinv).
  unfold main.
  destruct (clicked a); try state_kept Hinv'.
  destruct (uploaded_file a) as [f|]; [|state_kept Hinv'].
  destruct (truthy (extract_text_from_pdf f)) eqn:Ht; cbn [andb];
    [|state_kept Hinv'].
  destruct (len (extract_text_from_pdf f) >? 100); [|state_kept Hinv'].
  assert (Hne : extract_text_from_pdf f <> [])
    by (intros E; rewrite E in Ht; discriminate).
  destruct (split_text_default_nonempty _ (extract_text_has_word f Hne))
    as (cs & -> & Hcs).
  eexists. split; [reflexivity|]. intros _. exact Hcs.
Qed.

Lemma run_session_keeps_invariant acts :
  forall st,
    session_invariant st ->
    exists st', run_session st acts = Some st' /\ session_invariant st'.
Proof.
  induction acts as [|a acts IH]; intros st Hinv.
  - exists st. split; [reflexivity | exact Hinv].
  - destruct (main_keeps_invariant st a Hinv) as (st1 & E & Hinv1).
    cbn [run_session]. rewrite E. apply IH, Hinv1.
Qed.

(** C9. The session starts with [processed = False]; every run of [main]
    returns and keeps the invariant, because [processed] is set only
    together with the chunks of an extracted, stripped text of more than
    100 characters, which has a word and so gives at least one chunk;
    hence the invariant holds after every sequence of user actions. *)
Theorem session_invariant_preserved :
  session_invariant initial_session /\
  (forall st a,
     session_invariant st ->
     exists st', main st a = Some st' /\ session_invariant st') /\
  (forall acts,
     exists st,
       run_session initial_session acts = Some st /\ session_invariant st).
Proof.
  assert (H0 : session_invariant initial_session)
    by (intros H; discriminate).
  split; [exact H0|]. split.
  - exact main_keeps_invariant.
  - intros acts. apply run_session_keeps_invariant, H0.
Qed.

Lemma session_invariant_preserved_witness :
  session_invariant initial_session /\
  exists st',
    main initial_session process_one_page = Some st' /\
    session_invariant st'.
Proof.
  split; [intros H; discriminate|].
  apply (proj1 (proj2 session_invariant_preserved)
           initial_session process_one_page).
  intros H; discriminate.
Defined.

(** Processing the sample page sets [processed] and stores one chunk. *)
Example process_one_page_run :
  main initial_session process_one_page
  = Some {| chunks :=
              [lit "Attention mechanisms let a model weigh every token of its input against every other token of that same input."];
            processed := true;
            model_ready := true |}.
Proof. vm_compute. reflexivity. Qed.

(** * Further properties of the code *)

(** ** More facts about the string primitives *)

Lemma startswith_iff (s p : pystr) :
  startswith s p = true <-> exists b, s = p ++ b.
Proof.
  revert s; induction p as [|a p IH]; intros s;
    destruct s as [|c s]; cbn [startswith].
  - split; [intros _; exists []; reflexivity | reflexivity].
  - split; [intros _; exists (c :: s); reflexivity | reflexivity].
  - split; [discriminate | intros [b H]; discriminate].
  - rewrite andb_true_iff, N.eqb_eq, IH. split.
    + intros [-> [b ->]]. exists b. reflexivity.
    + intros [b H]. injection H as -> ->. split; [reflexivity|].
      exists b. reflexivity.
Qed.

(** [p in s] holds exactly when [s] is [p] with something around it. *)
Lemma contains_iff (p s : pystr) :
  contains p s = true <-> exists a b, s = a ++ p ++ b.
Proof.
  induction s as [|c s IH].
  - cbn [contains]. rewrite orb_false_r, startswith_iff. split.
    + intros [b H]. exists [], b. exact H.
    + intros (a & b & H). destruct a; [exists b; exact H | discriminate].
  - cbn [contains]. rewrite orb_true_iff, startswith_iff, IH. split.
    + intros [[b H] | (a & b & H)].
      * exists [], b. exact H.
      * exists (c :: a), b. rewrite H. reflexivity.
    + intros (a & b & H). destruct a as [|x a].
      * left. exists b. exact H.
      * right. injection H as _ ->. exists a, b. reflexivity.
Qed.

Lemma split_on_aux_app sep (a b cur : pystr) :
  split_on_aux sep cur (a ++ sep :: b)
  = split_on_aux sep cur a ++ split_on_aux sep [] b.
Proof.
  revert cur; induction a as [|c a IH]; intros cur;
    cbn [app split_on_aux].
  - rewrite N.eqb_refl. reflexivity.
  - destruct (c =? sep)%N; rewrite IH; reflexivity.
Qed.

(** The lines of two texts put together with a newline between them. *)
Lemma split_on_app sep (a b : pystr) :
  split_on sep (a ++ sep :: b) = split_on sep a ++ split_on sep b.
Proof. apply split_on_aux_app. Qed.

Lemma split_on_aux_forallb (P : char -> bool) sep (s cur : pystr) :
  forallb P cur = true -> forallb P s = true ->
  Forall (fun l => forallb P l = true) (split_on_aux sep cur s).
Proof.
  revert cur; induction s as [|c s IH]; intros cur Hcur Hs;
    cbn [split_on_aux].
  - constructor; [exact Hcur | constructor].
  - cbn [forallb] in Hs. apply andb_true_iff in Hs as [Hc Hs].
    destruct (c =? sep)%N.
    + constructor; [exact Hcur | apply IH; [reflexivity | exact Hs]].
    + apply IH; [|exact Hs].
      rewrite forallb_app, Hcur. cbn. rewrite Hc. reflexivity.
Qed.

Lemma split_ws_blank (ws cur : pystr) :
  forallb isspace ws = true -> split_ws cur ws = split_ws cur [].
Proof.
  revert cur; induction ws as [|c ws IH]; intros cur H; [reflexivity|].
  cbn [forallb] in H. apply andb_true_iff in H as [Hc Hws].
  cbn [split_ws]. rewrite Hc.
  destruct cur; rewrite (IH [] Hws); reflexivity.
Qed.

Lemma split_ws_app_blank (x ws cur : pystr) :
  forallb isspace ws = true -> split_ws cur (x ++ ws) = split_ws cur x.
Proof.
  intros H. revert cur; induction x as [|c x IH]; intros cur.
  - apply split_ws_blank, H.
  - cbn [app split_ws]. destruct (isspace c); [destruct cur|];
      rewrite IH; reflexivity.
Qed.

(** A whitespace character between two texts separates their words. *)
Lemma split_ws_app_space (a b cur : pystr) c :
  isspace c = true ->
  split_ws cur (a ++ c :: b) = split_ws cur a ++ split_ws [] b.
Proof.
  intros Hc. revert cur; induction a as [|x a IH]; intros cur.
  - cbn [app split_ws]. rewrite Hc. destruct cur; reflexivity.
  - cbn [app split_ws]. destruct (isspace x); [destruct cur|];
      rewrite IH; reflexivity.
Qed.

Lemma split_app_space (a b : pystr) c :
  isspace c = true -> split (a ++ c :: b) = split a ++ split b.
Proof. apply split_ws_app_space. Qed.

Lemma dropwhile_decompose_all (p : char -> bool) (s : pystr) :
  exists pre, s = pre ++ dropwhile p s /\ forallb p pre = true.
Proof.
  induction s as [|a s (pre & E & Hpre)]; cbn [dropwhile].
  - exists []. split; reflexivity.
  - destruct (p a) eqn:Ea.
    + exists (a :: pre). cbn. rewrite Ea, Hpre. split; [congruence|reflexivity].
    + exists []. split; reflexivity.
Qed.

Lemma split_lstrip (s : pystr) : split (lstrip s) = split s.
Proof.
  unfold split, lstrip.
  induction s as [|c s IH]; [reflexivity|].
  cbn [dropwhile]. destruct (isspace c) eqn:E; [|reflexivity].
  cbn [split_ws]. rewrite E. exact IH.
Qed.

Lemma split_rstrip (s : pystr) : split (rstrip s) = split s.
Proof.
  unfold rstrip.
  destruct (dropwhile_decompose_all isspace (rev s)) as (pre & E & Hpre).
  apply (f_equal (@rev char)) in E.
  rewrite rev_involutive, rev_app_distr in E.
  rewrite E at 2. unfold split.
  rewrite split_ws_app_blank by (rewrite forallb_rev; exact Hpre).
  reflexivity.
Qed.

(** Stripping a text does not change its words. *)
Lemma split_strip (s : pystr) : split (strip s) = split s.
Proof. unfold strip. rewrite split_rstrip. apply split_lstrip. Qed.

Lemma dropwhile_clean (s : pystr) : clean (dropwhile isspace s).
Proof.
  destruct (dropwhile isspace s) as [|c r] eqn:E; [exact I|].
  exact (dropwhile_head _ _ _ _ E).
Qed.

Lemma dropwhile_of_clean (s : pystr) : clean s -> dropwhile isspace s = s.
Proof.
  destruct s as [|c r]; [reflexivity|]. cbn. intros ->. reflexivity.
Qed.

Lemma strip_tidy (s : pystr) : tidy (strip s).
Proof.
  split.
  - destruct (strip s) as [|c r] eqn:E; [exact I|].
    exact (strip_head _ _ _ E).
  - unfold strip, rstrip. rewrite rev_involutive. apply dropwhile_clean.
Qed.

Lemma strip_of_tidy (x : pystr) : tidy x -> strip x = x.
Proof.
  intros [Hhead Hlast]. unfold strip, rstrip, lstrip.
  rewrite (dropwhile_of_clean x Hhead), (dropwhile_of_clean _ Hlast).
  apply rev_involutive.
Qed.

Lemma clean_app (a b : pystr) : clean a -> a <> [] -> clean (a ++ b).
Proof. destruct a; [contradiction | intros H _; exact H]. Qed.

Lemma tidy_join_two (x l : pystr) :
  tidy x -> tidy l -> x <> [] -> l <> [] -> tidy (x ++ lit " " ++ l).
Proof.
  intros [Hx _] [_ Hl] Hxne Hlne. split.
  - apply clean_app; assumption.
  - rewrite !rev_app_distr, <- app_assoc. apply clean_app; [exact Hl|].
    intros E. apply (f_equal (@rev char)) in E.
    rewrite rev_involutive in E. contradiction.
Qed.

(** ** More about the chunker *)

(** X1. With [overlap >= chunk_size] the loop index never advances:
    on a text that has a word the call of [split_text] does not return,
    however many turns of the loop it is given. *)
Theorem split_text_never_returns (text : pystr) (w o : Z) :
  w <= o -> split text <> [] ->
  split_text text w o = None /\
  forall fuel, split_text_fuel fuel text w o = None.
Proof.
  intros Ho Hne.
  assert (H : forall fuel, split_text_fuel fuel text w o = None)
    by (intros fuel; apply split_text_fuel_diverges; [lia | exact Hne]).
  split; [apply H | exact H].
Qed.

Lemma split_text_never_returns_witness :
  3 <= 3 /\ split (lit "a b") <> [] /\
  split_text (lit "a b") 3 3 = None /\
  forall fuel, split_text_fuel fuel (lit "a b") 3 3 = None.
Proof.
  split; [lia|]. split; [discriminate|].
  apply (split_text_never_returns (lit "a b") 3 3); [lia | discriminate].
Defined.

Lemma chunk_at_normalised words w i :
  Forall is_word words ->
  join (lit " ") (split (chunk_at words w i)) = chunk_at words w i.
Proof.
  intros Hw. unfold chunk_at at 1. rewrite split_join; [reflexivity|].
  unfold slice. apply Forall_firstn, Forall_skipn, Hw.
Qed.

Lemma windows_in k words cs step i c :
  In c (windows k words cs step i) -> exists i', c = chunk_at words cs i'.
Proof.
  revert i; induction k as [|k IH]; intros i; cbn [windows In];
    [contradiction|].
  intros [<- | H]; [exists i; reflexivity | exact (IH _ H)].
Qed.

(** X2. A text of at most [chunk_size - overlap] words (and at least
    one) gives a single chunk: its words joined by single spaces. *)
Theorem short_text_single_chunk (text : pystr) (w o : Z) :
  0 <= o -> 0 < len (split text) <= w - o ->
  split_text text w o = Some [join (lit " ") (split text)].
Proof.
  intros Ho [Hpos Hshort].
  assert (Hne : split text <> [])
    by (intros E; rewrite E in Hpos; cbn in Hpos; lia).
  rewrite split_text_windows by (lia || exact Hne).
  rewrite ceil_div_small by lia.
  change (Z.to_nat 1) with 1%nat. cbn [windows].
  unfold chunk_at. rewrite slice_firstn_skipn by lia.
  cbn [Z.to_nat skipn].
  rewrite firstn_all2 by (unfold len in *; lia). reflexivity.
Qed.

Lemma short_text_single_chunk_witness :
  0 <= 100 /\ 0 < len (split (lit " ab  cd ")) <= 800 - 100 /\
  split_text (lit " ab  cd ") 800 100
  = Some [join (lit " ") (split (lit " ab  cd "))].
Proof.
  split; [lia|]. split; [vm_compute; split; [reflexivity | discriminate]|].
  apply (short_text_single_chunk (lit " ab  cd ") 800 100);
    [lia | vm_compute; split; [reflexivity | discriminate]].
Defined.

(** X3. With [0 <= overlap < chunk_size] no chunk is empty, and every
    chunk is its own words joined by single spaces: it has no whitespace
    at its ends, and no run of whitespace but a single space inside. *)
Theorem chunks_are_normalised (text : pystr) (w o : Z) :
  0 <= o < w ->
  exists chunks,
    split_text text w o = Some chunks /\
    forall c, In c chunks ->
      c <> [] /\ join (lit " ") (split c) = c.
Proof.
  intros Ho.
  destruct (split_text_shape text w o Ho)
    as (chunks & Hrun & _ & Hstart & Hnth).
  exists chunks. split; [exact Hrun|]. intros c Hin. split.
  - destruct (In_nth_error _ _ Hin) as [j Hj].
    destruct (Hnth j c Hj) as [Hlt Hsplit].
    specialize (Hstart j Hlt).
    intros ->. change (split []) with (@nil pystr) in Hsplit.
    apply (f_equal (@length pystr)) in Hsplit.
    rewrite length_firstn, length_skipn in Hsplit. cbn [length] in Hsplit.
    unfold len in Hstart. nia.
  - destruct (split text) as [|w0 ws] eqn:E.
    + unfold split_text in Hrun.
      rewrite split_text_fuel_blank in Hrun
        by (apply split_nil_iff; exact E).
      injection Hrun as <-. contradiction.
    + rewrite <- E in *.
      rewrite split_text_windows in Hrun by (lia || (rewrite E; discriminate)).
      injection Hrun as <-.
      destruct (windows_in _ _ _ _ _ _ Hin) as [i ->].
      apply chunk_at_normalised, split_words.
Qed.

Lemma chunks_are_normalised_witness :
  0 <= 1 < 2 /\
  exists chunks,
    split_text (lit "  a   b c ") 2 1 = Some chunks /\
    forall c, In c chunks ->
      c <> [] /\ join (lit " ") (split c) = c.
Proof.
  split; [lia|].
  apply (chunks_are_normalised (lit "  a   b c ") 2 1). lia.
Defined.

Lemma total_words_from chunks (a : Z) :
  fold_left (fun acc chunk => acc + len (split chunk)) chunks a
  = a + total_words chunks.
Proof.
  unfold total_words. revert a; induction chunks as [|c cs IH]; intros a;
    cbn [fold_left]; [lia|].
  rewrite IH, (IH (0 + _)). lia.
Qed.

Lemma total_words_cons c cs :
  total_words (c :: cs) = len (split c) + total_words cs.
Proof.
  unfold total_words at 1. cbn [fold_left]. rewrite total_words_from. lia.
Qed.

Lemma tails_within_total (o : nat) chunks :
  len (concat (map (fun c => skipn o (split c)) chunks))
  <= total_words chunks /\
  (o = 0%nat ->
   len (concat (map (fun c => skipn o (split c)) chunks))
   = total_words chunks).
Proof.
  induction chunks as [|c cs [IHle IHeq]]; [split; reflexivity|].
  rewrite total_words_cons. cbn [map concat]. unfold len in *.
  rewrite length_app, length_skipn. split; [lia|].
  intros ->. specialize (IHeq eq_refl). lia.
Qed.

(** X4. The word count in the caption of [main] adds up the words of the
    chunks, so it counts the overlapping words again: it is at least the
    number of words of the text, and equal to it when the overlap is
    0. *)
Theorem total_words_counts_overlap (text : pystr) (w o : nat) :
  (o < w)%nat ->
  exists chunks,
    split_text text (Z.of_nat w) (Z.of_nat o) = Some chunks /\
    len (split text) <= total_words chunks /\
    (o = 0%nat -> total_words chunks = len (split text)).
Proof.
  intros Ho.
  destruct (reassemble_split_text text (Z.of_nat w) (Z.of_nat o)
              ltac:(lia)) as (chunks & Hrun & Hre).
  rewrite Nat2Z.id in Hre. exists chunks. split; [exact Hrun|].
  rewrite <- Hre. destruct chunks as [|c cs]; [split; reflexivity|].
  cbn [reassemble]. rewrite total_words_cons.
  destruct (tails_within_total o cs) as [Hle Heq].
  unfold len in *. rewrite length_app. split; [lia|].
  intros E. specialize (Heq E). lia.
Qed.

Lemma total_words_counts_overlap_witness :
  (1 < 3)%nat /\
  exists chunks,
    split_text (lit "a b c d e") (Z.of_nat 3) (Z.of_nat 1) = Some chunks /\
    len (split (lit "a b c d e")) <= total_words chunks /\
    (1%nat = 0%nat -> total_words chunks = len (split (lit "a b c d e"))).
Proof.
  split; [lia|].
  apply (total_words_counts_overlap (lit "a b c d e") 3 1). lia.
Defined.

(** ** More about the formatter *)

Section FormatterMore.
Variable tbl : char -> pystr.

Lemma blank_not_error (raw : pystr) :
  forallb isspace raw = true -> is_error_message raw = false.
Proof.
  destruct raw as [|c r]; [reflexivity|].
  cbn [forallb]. intros H. apply andb_true_iff in H as [Hc _].
  unfold is_error_message.
  change (lit "Error:") with (69%N :: lit "rror:").
  change (lit "API Error:") with (65%N :: lit "PI Error:").
  cbn [startswith].
  destruct (N.eqb_spec 69 c) as [<-|_]; [discriminate|].
  destruct (N.eqb_spec 65 c) as [<-|_]; [discriminate|].
  reflexivity.
Qed.

Lemma blank_lines_plain (raw : pystr) :
  forallb isspace raw = true ->
  Forall (plain_line tbl) (split_on newline raw).
Proof.
  intros H. unfold split_on.
  pose proof (split_on_aux_forallb isspace newline raw [] eq_refl H) as Hall.
  eapply Forall_impl; [|exact Hall].
  intros l Hl. unfold plain_line.
  apply strip_nil_iff in Hl. rewrite Hl. apply section_header_nil.
Qed.

(** X5. For an empty or whitespace-only response the output is the
    title alone: no section, no placeholder, no error report. *)
Theorem blank_response_title_only (raw : pystr) :
  forallb isspace raw = true -> format_response tbl raw = report_title.
Proof.
  intros H. unfold format_response.
  rewrite (blank_not_error raw H).
  rewrite (parse_sections_no_header tbl raw (blank_lines_plain raw H)).
  apply strip_nil_iff in H.
  unfold render_section. cbn [all_sections fold_left initial_sections
                              truthy andb].
  rewrite H. reflexivity.
Qed.

Lemma scan_line_tidy st l :
  (forall k, tidy (snd st k)) ->
  forall k, tidy (snd (scan_line tbl st l) k).
Proof.
  intros H k. unfold scan_line.
  destruct (strip l) as [|c r] eqn:E; [apply H|].
  cbn [truthy negb].
  destruct (section_header tbl (c :: r)); [apply H|].
  destruct st as [[cur|] secs]; cbn [fst snd] in *; [|apply H].
  pose proof (strip_tidy l) as Hl. rewrite E in Hl.
  unfold set_section.
  destruct (secs cur) as [|c0 r0] eqn:Ec; cbn [truthy snd];
    (destruct (section_eqb cur k); [|apply H]).
  - exact Hl.
  - apply tidy_join_two; [|exact Hl|discriminate|discriminate].
    rewrite <- Ec. apply H.
Qed.

Lemma scan_lines_tidy lines st :
  (forall k, tidy (snd st k)) ->
  forall k, tidy (snd (scan_lines tbl lines st) k).
Proof.
  revert st; induction lines as [|l lines IH]; intros st H; [exact H|].
  cbn [scan_lines fold_left]. apply IH. apply scan_line_tidy, H.
Qed.

Lemma parse_sections_tidy raw s : tidy (parse_sections tbl raw s).
Proof.
  unfold parse_sections. apply scan_lines_tidy.
  intros k. split; exact I.
Qed.

(** X10. What a section holds after the scan has no whitespace at
    either end, so the [content.strip()] of the output loop changes
    nothing. *)
Theorem parse_sections_stripped (raw : pystr) (s : section) :
  strip (parse_sections tbl raw s) = parse_sections tbl raw s.
Proof.
  destruct (parse_sections_tidy raw s) as [Hhead Hlast].
  unfold strip, rstrip, lstrip.
  rewrite (dropwhile_of_clean _ Hhead), (dropwhile_of_clean _ Hlast).
  apply rev_involutive.
Qed.

Lemma render_section_shown raw content formatted s :
  strip raw <> [] -> tidy (content s) ->
  render_section raw content formatted s
  = formatted ++ section_block s (shown_body (content s)).
Proof.
  intros Hraw Ht. unfold render_section, shown_body.
  rewrite (strip_of_tidy _ Ht).
  destruct (content s); cbn [truthy andb]; [|reflexivity].
  destruct (strip raw); [contradiction | reflexivity].
Qed.

(** X6. For a response that is not blank and no error message the
    output is the title followed by the five blocks in their fixed
    order, whatever order the response has them in; each block shows
    what was scanned for its label, or the placeholder when that is
    empty. *)
Theorem format_response_layout (raw : pystr) :
  is_error_message raw = false -> strip raw <> [] ->
  format_response tbl raw = layout (parse_sections tbl raw).
Proof.
  intros Herr Hraw. unfold format_response, layout. rewrite Herr.
  cbn [all_sections fold_left map concat].
  rewrite !render_section_shown
    by (exact Hraw || apply parse_sections_tidy).
  rewrite <- !app_assoc, app_nil_r. reflexivity.
Qed.

Lemma render_section_same_guard raw raw' content formatted s :
  truthy (strip raw) = truthy (strip raw') ->
  render_section raw content formatted s
  = render_section raw' content formatted s.
Proof. intros H. unfold render_section. rewrite H. reflexivity. Qed.

(** X7. Lines before the first header are dropped: a preamble in which
    no header is found changes neither the sections nor, when what
    follows is not blank, the output. *)
Theorem preamble_is_dropped (pre rest : pystr) :
  Forall (plain_line tbl) (split_on newline pre) ->
  parse_sections tbl (pre ++ newline :: rest) = parse_sections tbl rest /\
  (is_error_message (pre ++ newline :: rest) = false ->
   is_error_message rest = false ->
   strip rest <> [] ->
   format_response tbl (pre ++ newline :: rest) = format_response tbl rest).
Proof.
  intros Hpre.
  assert (Hparse : parse_sections tbl (pre ++ newline :: rest)
                   = parse_sections tbl rest).
  { unfold parse_sections.
    rewrite split_on_app, scan_lines_app.
    rewrite scan_lines_no_section by exact Hpre. reflexivity. }
  split; [exact Hparse|].
  intros Herr Herr' Hrest.
  assert (Hwhole : strip (pre ++ newline :: rest) <> []).
  { intros E. apply strip_nil_iff in E.
    rewrite forallb_app in E. apply andb_true_iff in E as [_ E].
    cbn [forallb] in E. apply andb_true_iff in E as [_ E].
    apply strip_nil_iff in E. contradiction. }
  assert (Hguard : truthy (strip (pre ++ newline :: rest))
                   = truthy (strip rest)).
  { destruct (strip rest); [contradiction|].
    destruct (strip (pre ++ newline :: rest));
      [contradiction | reflexivity]. }
  unfold format_response. rewrite Herr, Herr', Hparse.
  cbn [all_sections fold_left].
  rewrite !(render_section_same_guard (pre ++ newline :: rest) rest
              _ _ _ Hguard).
  reflexivity.
Qed.

(** X8. A line in which a label name occurs anywhere, in any letter
    case, is taken for a header: none of its text is stored. *)
Theorem label_anywhere_is_header (st : scan_state) (l a x b : pystr)
    (s : section) :
  strip l = a ++ x ++ b ->
  upper tbl x = section_name s ->
  (exists s', section_header tbl (strip l) = Some s') /\
  snd (scan_line tbl st l) = snd st.
Proof.
  intros Hl Hx.
  assert (Hin : contains (section_name s) (upper tbl (strip l)) = true).
  { apply contains_iff. exists (upper tbl a), (upper tbl b).
    rewrite Hl. unfold upper. rewrite !flat_map_app.
    fold (upper tbl x). rewrite Hx. reflexivity. }
  destruct (section_header tbl (strip l)) as [s'|] eqn:E.
  - split; [exists s'; reflexivity|].
    rewrite (scan_line_header tbl st l s' E). reflexivity.
  - apply section_header_none_iff in E.
    destruct (E s) as [Hno _]. rewrite Hin in Hno. discriminate.
Qed.

Lemma accumulate_join_from (c : pystr) (ls : list pystr) :
  c <> [] -> Forall (fun l => truthy l = true) ls ->
  accumulate c ls = join (lit " ") (c :: ls).
Proof.
  intros Hc Hls. revert c Hc.
  induction Hls as [|l ls Hl Hls IH]; intros c Hc; [reflexivity|].
  cbn [accumulate fold_left].
  destruct c as [|c0 c]; [contradiction|]. cbn [truthy].
  fold (accumulate ((c0 :: c) ++ lit " " ++ l) ls).
  rewrite IH by discriminate.
  destruct ls as [|l' ls].
  - cbn [join]. destruct l; [discriminate | reflexivity].
  - change (join (lit " ") (((c0 :: c) ++ lit " " ++ l) :: l' :: ls))
      with (((c0 :: c) ++ lit " " ++ l) ++ lit " "
              ++ join (lit " ") (l' :: ls)).
    change (join (lit " ") ((c0 :: c) :: l :: l' :: ls))
      with ((c0 :: c) ++ lit " " ++ l ++ lit " "
              ++ join (lit " ") (l' :: ls)).
    rewrite <- !app_assoc. reflexivity.
Qed.

Lemma accumulate_join (ls : list pystr) :
  Forall (fun l => truthy l = true) ls ->
  accumulate [] ls = join (lit " ") ls.
Proof.
  intros Hls. destruct Hls as [|l ls Hl Hls]; [reflexivity|].
  cbn [accumulate fold_left truthy].
  fold (accumulate l ls).
  apply accumulate_join_from; [|exact Hls].
  destruct l; [discriminate | discriminate].
Qed.

(** X9. In a response that starts with the header of one section and
    has no other header, that section holds the non-blank lines after
    the header, stripped and joined by single spaces, and every other
    section is empty. *)
Theorem section_content_is_join (raw h : pystr) (body : list pystr)
    (s : section) :
  split_on newline raw = h :: body ->
  section_header tbl (strip h) = Some s ->
  Forall (plain_line tbl) body ->
  parse_sections tbl raw s
  = join (lit " ") (filter truthy (map strip body)) /\
  forall k, k <> s -> parse_sections tbl raw k = [].
Proof.
  intros Hlines Hh Hbody. unfold parse_sections. rewrite Hlines.
  cbn [scan_lines fold_left].
  rewrite (scan_line_header tbl _ h s Hh). cbn [snd].
  destruct (scan_lines_plain tbl s body Hbody initial_sections)
    as [_ Hs].
  unfold scan_lines in Hs. split.
  - rewrite Hs, section_eqb_refl. apply accumulate_join.
    apply Forall_forall. intros l Hl. apply filter_In in Hl. tauto.
  - intros k Hk. rewrite Hs.
    destruct (section_eqb s k) eqn:E; [|reflexivity].
    apply section_eqb_eq in E. congruence.
Qed.

End FormatterMore.

Lemma blank_response_title_only_witness :
  forallb isspace [32; 10; 9; 32]%N = true /\
  format_response no_case_table [32; 10; 9; 32]%N = report_title.
Proof.
  split; [reflexivity|].
  apply (blank_response_title_only no_case_table [32; 10; 9; 32]%N).
  reflexivity.
Defined.

Lemma format_response_layout_witness :
  is_error_message sectioned_response = false /\
  strip sectioned_response <> [] /\
  format_response no_case_table sectioned_response
  = layout (parse_sections no_case_table sectioned_response).
Proof.
  split; [reflexivity|]. split; [discriminate|].
  apply (format_response_layout no_case_table sectioned_response);
    [reflexivity | discriminate].
Defined.

Lemma preamble_is_dropped_witness :
  Forall (plain_line no_case_table)
    (split_on newline (lit "Sure, here is the analysis.")) /\
  parse_sections no_case_table
    (lit "Sure, here is the analysis." ++ newline :: sectioned_response)
  = parse_sections no_case_table sectioned_response /\
  (is_error_message
     (lit "Sure, here is the analysis." ++ newline :: sectioned_response)
   = false ->
   is_error_message sectioned_response = false ->
   strip sectioned_response <> [] ->
   format_response no_case_table
     (lit "Sure, here is the analysis." ++ newline :: sectioned_response)
   = format_response no_case_table sectioned_response).
Proof.
  assert (H : Forall (plain_line no_case_table)
                (split_on newline (lit "Sure, here is the analysis.")))
    by (repeat constructor).
  split; [exact H|].
  apply (preamble_is_dropped no_case_table
           (lit "Sure, here is the analysis.") sectioned_response).
  exact H.
Defined.

Lemma label_anywhere_is_header_witness :
  strip (lit "  In summary, attention works. ")
  = lit "In " ++ lit "summary" ++ lit ", attention works." /\
  upper no_case_table (lit "summary") = section_name SUMMARY /\
  (exists s',
     section_header no_case_table
       (strip (lit "  In summary, attention works. ")) = Some s') /\
  snd (scan_line no_case_table (Some KEY_CONCEPT, initial_sections)
         (lit "  In summary, attention works. "))
  = snd (Some KEY_CONCEPT, initial_sections).
Proof.
  split; [reflexivity|]. split; [reflexivity|].
  apply (label_anywhere_is_header no_case_table
           (Some KEY_CONCEPT, initial_sections)
           (lit "  In summary, attention works. ")
           (lit "In ") (lit "summary") (lit ", attention works.") SUMMARY);
    reflexivity.
Defined.

Lemma section_content_is_join_witness :
  split_on newline
    (join [newline]
       [lit "Summary:"; lit "  Attention works. "; lit ""; lit "It scales."])
  = lit "Summary:" :: [lit "  Attention works. "; lit ""; lit "It scales."] /\
  section_header no_case_table (strip (lit "Summary:")) = Some SUMMARY /\
  Forall (plain_line no_case_table)
    [lit "  Attention works. "; lit ""; lit "It scales."] /\
  parse_sections no_case_table
    (join [newline]
       [lit "Summary:"; lit "  Attention works. "; lit ""; lit "It scales."])
    SUMMARY
  = join (lit " ")
      (filter truthy
         (map strip [lit "  Attention works. "; lit ""; lit "It scales."])) /\
  forall k, k <> SUMMARY ->
    parse_sections no_case_table
      (join [newline]
         [lit "Summary:"; lit "  Attention works. "; lit ""; lit "It scales."])
      k = [].
Proof.
  assert (H : Forall (plain_line no_case_table)
                [lit "  Attention works. "; lit ""; lit "It scales."])
    by (repeat constructor).
  split; [reflexivity|]. split; [reflexivity|]. split; [exact H|].
  apply (section_content_is_join no_case_table
           (join [newline]
              [lit "Summary:"; lit "  Attention works. "; lit "";
               lit "It scales."])
           (lit "Summary:")
           [lit "  Attention works. "; lit ""; lit "It scales."] SUMMARY);
    [reflexivity | reflexivity | exact H].
Defined.

(** ** More about the inference call *)

Lemma str_eqb_eq (a b : pystr) : str_eqb a b = true <-> a = b.
Proof.
  revert b; induction a as [|x a IH]; intros [|y b]; cbn [str_eqb];
    try (split; (reflexivity || discriminate)).
  rewrite andb_true_iff, N.eqb_eq, IH. split.
  - intros [-> ->]. reflexivity.
  - intros H. injection H as -> ->. split; reflexivity.
Qed.

Lemma member_iff (members : list pystr) :
  existsb (str_eqb MODEL_NAME) members = true <-> In MODEL_NAME members.
Proof.
  rewrite existsb_exists. split.
  - intros (m & Hin & E). apply str_eqb_eq in E. rewrite E. exact Hin.
  - intros Hin. exists MODEL_NAME. split; [exact Hin|].
    apply str_eqb_eq. reflexivity.
Qed.

Lemma model_name_in_true (name : name_value) :
  model_name_in name = Some true <-> names_model name.
Proof.
  unfold names_model. destruct name as [s|members|]; cbn [model_name_in].
  - split.
    + intros H. injection H as H. apply contains_iff in H as (a & b & ->).
      left. exists a, b. reflexivity.
    + intros [(a & b & H) | (members & H & _)]; [|discriminate].
      injection H as ->. f_equal. apply contains_iff. exists a, b.
      reflexivity.
  - split.
    + intros H. injection H as H. apply member_iff in H.
      right. exists members. split; [reflexivity | exact H].
    + intros [(a & b & H) | (members' & H & Hin)]; [discriminate|].
      injection H as <-. f_equal. apply member_iff, Hin.
  - split; [discriminate|].
    intros [(a & b & H) | (members & H & _)]; discriminate.
Qed.

Lemma model_name_in_false (name : name_value) :
  model_name_in name = Some false <-> names_other_model name.
Proof.
  unfold names_other_model.
  destruct name as [s|members|]; cbn [model_name_in].
  - split.
    + intros H. left. exists s. split; [reflexivity|].
      intros a b E.
      assert (Hc : contains MODEL_NAME s = true)
        by (apply contains_iff; exists a, b; exact E).
      rewrite Hc in H. discriminate.
    + intros [(s' & H & Hno) | (members & H & _)]; [|discriminate].
      injection H as <-. f_equal.
      destruct (contains MODEL_NAME s) eqn:E; [|reflexivity].
      apply contains_iff in E as (a & b & E). contradiction (Hno a b E).
  - split.
    + intros H. right. exists members.
      split; [reflexivity|]. intros Hin. apply member_iff in Hin.
      rewrite Hin in H. discriminate.
    + intros [(s & H & _) | (members' & H & Hno)]; [discriminate|].
      injection H as <-. f_equal.
      destruct (existsb (str_eqb MODEL_NAME) members) eqn:E; [|reflexivity].
      apply member_iff in E. contradiction.
  - split; [discriminate|].
    intros [(s & H & _) | (members & H & _)]; discriminate.
Qed.

(** The lazy test finds the model exactly when a name with the model in
    it is reached: every name before it can be tested and has not the
    model in it. *)
Lemma any_model_name_true (names : list name_value) :
  any_model_name names = Some true <->
  exists before name after,
    names = before ++ name :: after /\
    Forall names_other_model before /\ names_model name.
Proof.
  split.
  - induction names as [|n names IH]; cbn [any_model_name];
      [discriminate|].
    destruct (model_name_in n) as [[|]|] eqn:E; [| |discriminate].
    + intros _. exists [], n, names.
      split; [reflexivity|]. split; [constructor|].
      apply model_name_in_true, E.
    + intros H. destruct (IH H) as (before & name & after & -> & Hb & Hn).
      exists (n :: before), name, after.
      split; [reflexivity|]. split; [|exact Hn].
      constructor; [apply model_name_in_false, E | exact Hb].
  - intros (before & name & after & -> & Hb & Hn).
    induction Hb as [|n before Hno _ IH]; cbn [app any_model_name].
    + apply model_name_in_true in Hn. rewrite Hn. reflexivity.
    + apply model_name_in_false in Hno. rewrite Hno. exact IH.
Qed.

(** X11. The model counts as ready exactly when the listing request is
    answered with status 200, the listing can be read, and a name with
    ["paper-analyzer"] in it (a string with anything before and after
    it, such as a tag [":latest"]) is reached by the test: every name
    before it is a string, list or object without the model name. A
    name that is null or a number and comes before the model's name
    hides it; one that comes after it does not matter. An exception or
    another status means not ready. *)
Theorem check_model_ready_iff (r : tags_reply) :
  check_model_ready r = true <->
  exists before name after,
    r = Tags_response 200 (Some (before ++ name :: after)) /\
    Forall names_other_model before /\ names_model name.
Proof.
  split.
  - destruct r as [|status_code [names|]]; cbn [check_model_ready];
      try discriminate.
    + destruct (Z.eqb_spec status_code 200) as [->|_]; [|discriminate].
      destruct (any_model_name names) as [[|]|] eqn:E; try discriminate.
      intros _. apply any_model_name_true in E
        as (before & name & after & -> & Hb & Hn).
      exists before, name, after. repeat split; assumption.
    + destruct (status_code =? 200); discriminate.
  - intros (before & name & after & -> & Hb & Hn).
    cbn [check_model_ready Z.eqb Pos.eqb].
    assert (E : any_model_name (before ++ name :: after) = Some true)
      by (apply any_model_name_true; exists before, name, after;
          repeat split; assumption).
    rewrite E. reflexivity.
Qed.

Lemma check_model_ready_iff_witness :
  (exists before name after,
     null_name_last = Tags_response 200 (Some (before ++ name :: after)) /\
     Forall names_other_model before /\ names_model name) /\
  check_model_ready null_name_last = true.
Proof.
  assert (H : exists before name after,
             null_name_last
             = Tags_response 200 (Some (before ++ name :: after)) /\
             Forall names_other_model before /\ names_model name).
  { exists [Name_str (lit "llama3")],
      (Name_str (lit "paper-analyzer:latest")), [Name_scalar].
    split; [reflexivity|]. split.
    - constructor; [|constructor].
      apply model_name_in_false. reflexivity.
    - left. exists [], (lit ":latest"). reflexivity. }
  split; [exact H|].
  exact (proj2 (check_model_ready_iff null_name_last) H).
Defined.

(** A null name hides the model when it comes first, not when it comes
    last. *)
Example null_name_hides_later_models :
  check_model_ready null_name_first = false /\
  check_model_ready null_name_last = true.
Proof. split; reflexivity. Qed.

(** X12. Whatever goes wrong is reported: when the model is not ready,
    or the generation request is not answered with status 200 and a body
    that decodes (it raises anything, the status is another one, the
    body cannot be read), [format_response] turns what [query_ollama]
    returns into the error report. *)
Theorem every_failure_is_reported (tbl : char -> pystr) (base : pystr)
    (srv : server) (prompt : pystr) :
  check_model_ready (list_models srv) = false \/
  ~ answered (generate srv prompt) ->
  format_response tbl (query_ollama base srv prompt)
  = error_report (query_ollama base srv prompt).
Proof.
  intros H. unfold query_ollama.
  destruct (check_model_ready (list_models srv)); cbn [negb];
    [|reflexivity].
  destruct H as [H|H]; [discriminate|].
  destruct (generate srv prompt) as [| |msg|status_code text json].
  - reflexivity.
  - unfold format_response. rewrite is_error_message_connection.
    reflexivity.
  - reflexivity.
  - destruct (Z.eqb_spec status_code 200) as [->|_].
    + destruct json as [msg|response]; [reflexivity|].
      contradiction H. exists text, response. reflexivity.
    + unfold format_response. rewrite is_error_message_api. reflexivity.
Qed.

Lemma every_failure_is_reported_witness :
  (check_model_ready (list_models unreachable_server) = false \/
   ~ answered (generate unreachable_server [])) /\
  format_response no_case_table
    (query_ollama default_base_url unreachable_server [])
  = error_report (query_ollama default_base_url unreachable_server []).
Proof.
  split; [left; reflexivity|].
  apply (every_failure_is_reported no_case_table default_base_url
           unreachable_server []).
  left. reflexivity.
Defined.

(** X13. When the model is ready and the answer has status 200 but no
    "response" entry, the user sees the five labels, each with the
    placeholder: the fallback text holds no label. *)
Theorem missing_response_shows_placeholders (tbl : char -> pystr)
    (base : pystr) (srv : server) (prompt text : pystr) :
  check_model_ready (list_models srv) = true ->
  generate srv prompt = Post_response 200 text (Json_object None) ->
  format_response tbl (query_ollama base srv prompt) = all_placeholders.
Proof.
  intros Hready Hgen. unfold query_ollama.
  rewrite Hready, Hgen. cbn [negb Z.eqb Pos.eqb].
  unfold format_response, all_placeholders.
  change (is_error_message (lit "No response from model.")) with false.
  cbv iota.
  rewrite (parse_sections_no_header tbl (lit "No response from model."))
    by (repeat constructor).
  cbn [all_sections fold_left map concat].
  rewrite !render_section_placeholder by (reflexivity || discriminate).
  rewrite <- !app_assoc, app_nil_r. reflexivity.
Qed.

Lemma missing_response_shows_placeholders_witness :
  check_model_ready (list_models silent_server) = true /\
  generate silent_server [] = Post_response 200 (lit "{}") (Json_object None) /\
  format_response no_case_table
    (query_ollama default_base_url silent_server [])
  = all_placeholders.
Proof.
  split; [reflexivity|]. split; [reflexivity|].
  apply (missing_response_shows_placeholders no_case_table
           default_base_url silent_server [] (lit "{}")); reflexivity.
Defined.

(** ** More about the PDF text and the session *)

(** X14. The text taken from a PDF has no whitespace at either end:
    stripping it again changes nothing. An unreadable PDF gives the
    empty text. *)
Theorem extracted_text_is_stripped (f : pdf_reply) :
  tidy (extract_text_from_pdf f) /\
  strip (extract_text_from_pdf f) = extract_text_from_pdf f.
Proof.
  assert (H : tidy (extract_text_from_pdf f)).
  { destruct f as [msg|pages]; cbn [extract_text_from_pdf].
    - split; exact I.
    - apply strip_tidy. }
  split; [exact H | apply strip_of_tidy, H].
Qed.

(** After a text that is empty or ends with a newline, what is appended
    starts new words. *)
Lemma split_after_newline (acc x : pystr) :
  acc = [] \/ (exists a, acc = a ++ [newline]) ->
  split (acc ++ x) = split acc ++ split x.
Proof.
  intros [-> | [a ->]]; [reflexivity|].
  rewrite <- app_assoc. cbn [app].
  rewrite !split_app_space by reflexivity.
  cbn [split split_ws]. rewrite app_nil_r. reflexivity.
Qed.

Lemma split_pages (pages : list (option pystr)) :
  forall acc,
    acc = [] \/ (exists a, acc = a ++ [newline]) ->
    split
      (fold_left
         (fun text extracted =>
            match extracted with
            | Some e => if truthy e then text ++ e ++ [newline] else text
            | None => text
            end)
         pages acc)
    = split acc ++ concat (map page_words pages).
Proof.
  induction pages as [|page pages IH]; intros acc Hacc;
    cbn [fold_left map concat].
  - rewrite app_nil_r. reflexivity.
  - destruct page as [[|c e]|]; cbn [truthy page_words].
    + rewrite IH by exact Hacc. reflexivity.
    + rewrite IH.
      * rewrite (split_after_newline acc) by exact Hacc.
        change ((c :: e) ++ [newline]) with ((c :: e) ++ newline :: []).
        rewrite split_app_space by reflexivity.
        cbn [split split_ws]. rewrite app_nil_r, app_assoc. reflexivity.
      * right. exists (acc ++ c :: e). rewrite <- app_assoc. reflexivity.
    + rewrite IH by exact Hacc. reflexivity.
Qed.

(** X15. The words of the text taken from a PDF are the words of its
    pages, page after page: the newline put after every page keeps the
    last word of a page apart from the first word of the next, and
    pages without text add nothing. *)
Theorem extracted_words_are_page_words (pages : list (option pystr)) :
  split (extract_text_from_pdf (Pdf_pages pages))
  = concat (map page_words pages).
Proof.
  cbn [extract_text_from_pdf]. rewrite split_strip.
  rewrite split_pages by (left; reflexivity). reflexivity.
Qed.

Lemma main_flags st a st' :
  main st a = Some st' ->
  (model_ready st = true -> model_ready st' = true) /\
  (processed st = true -> processed st' = true).
Proof.
  assert (Hr : (model_ready st = true ->
                model_ready (refresh_model_ready st a) = true) /\
               (processed st = true ->
                processed (refresh_model_ready st a) = true)).
  { unfold refresh_model_ready.
    destruct (model_ready st) eqn:Em; cbn [negb];
      [split; [intros _; exact Em | intros H; exact H]|].
    destruct (check_model_ready _); cbn;
      [split; [reflexivity | intros H; exact H]|].
    split; [discriminate | intros H; exact H]. }
  unfold main.
  destruct (clicked a); try (intros E; injection E as <-; exact Hr).
  destruct (uploaded_file a) as [f|];
    [|intros E; injection E as <-; exact Hr].
  destruct (truthy _ && _); [|intros E; injection E as <-; exact Hr].
  destruct (split_text _ _ _); [|discriminate].
  intros E; injection E as <-. cbn [model_ready processed].
  split; [apply Hr | reflexivity].
Qed.

(** X16. Nothing in a session resets the two flags: once the model was
    seen ready, and once a paper was processed, this stays so after any
    further actions. *)
Theorem flags_never_reset (acts : list action) (st st' : session_state) :
  run_session st acts = Some st' ->
  (model_ready st = true -> model_ready st' = true) /\
  (processed st = true -> processed st' = true).
Proof.
  revert st; induction acts as [|a acts IH]; intros st;
    cbn [run_session].
  - intros E; injection E as <-. tauto.
  - destruct (main st a) as [st1|] eqn:E1; [|discriminate].
    intros E. destruct (main_flags st a st1 E1) as [Hm Hp].
    destruct (IH st1 E) as [Hm' Hp']. tauto.
Qed.

Lemma flags_never_reset_witness :
  run_session processed_session [process_broken; process_one_page]
  = Some one_page_session /\
  (model_ready processed_session = true ->
   model_ready one_page_session = true) /\
  (processed processed_session = true ->
   processed one_page_session = true).
Proof.
  split; [vm_compute; reflexivity|].
  apply (flags_never_reset [process_broken; process_one_page]
           processed_session one_page_session).
  vm_compute. reflexivity.
Defined.

(** X17. A run of [main] changes the chunks and the processed flag only
    when "Process Paper" was clicked with a file whose extracted text
    has more than 100 characters; the chunks are then those of that
    text. A click without a file, an unreadable PDF, a short text and
    the three analysis buttons leave the processed paper as it was. *)
Theorem chunks_change_only_on_processing (st st' : session_state)
    (a : action) :
  main st a = Some st' ->
  (chunks st' = chunks st /\ processed st' = processed st) \/
  exists f,
    clicked a = Process_Paper /\ uploaded_file a = Some f /\
    100 < len (extract_text_from_pdf f) /\
    split_text (extract_text_from_pdf f) default_chunk_size default_overlap
    = Some (chunks st') /\
    processed st' = true.
Proof.
  pose proof (refresh_model_ready_chunks st a) as Hr.
  unfold main.
  destruct (clicked a) eqn:Ec;
    try (intros E; injection E as <-; left; exact Hr).
  destruct (uploaded_file a) as [f|] eqn:Ef;
    [|intros E; injection E as <-; left; exact Hr].
  destruct (truthy (extract_text_from_pdf f)); cbn [andb];
    [|intros E; injection E as <-; left; exact Hr].
  destruct (Z.gtb_spec (len (extract_text_from_pdf f)) 100) as [Hlen|_];
    [|intros E; injection E as <-; left; exact Hr].
  destruct (split_text _ _ _) as [cs|] eqn:Es; [|discriminate].
  intros E; injection E as <-. right. exists f. cbn.
  repeat split; try reflexivity; assumption.
Qed.

Lemma chunks_change_only_on_processing_witness :
  main processed_session process_broken = Some processed_session /\
  ((chunks processed_session = chunks processed_session /\
    processed processed_session = processed processed_session) \/
   exists f,
     clicked process_broken = Process_Paper /\
     uploaded_file process_broken = Some f /\
     100 < len (extract_text_from_pdf f) /\
     split_text (extract_text_from_pdf f) default_chunk_size default_overlap
     = Some (chunks processed_session) /\
     processed processed_session = true).
Proof.
  split; [reflexivity|].
  apply (chunks_change_only_on_processing processed_session
           processed_session process_broken).
  reflexivity.
Defined.

(** X18. "Process Paper" on a file whose extracted text has more than
    100 characters always goes through: the run returns, the paper is
    marked processed, the analysis tabs open, and the session holds
    [ceil(n / 700)] chunks for the [n] words of the text. *)
Theorem processing_stores_chunks (st : session_state) (a : action)
    (f : pdf_reply) :
  clicked a = Process_Paper ->
  uploaded_file a = Some f ->
  100 < len (extract_text_from_pdf f) ->
  exists st',
    main st a = Some st' /\
    processed st' = true /\
    shows_analysis st' = true /\
    len (chunks st') = ceil_div (len (split (extract_text_from_pdf f))) 700.
Proof.
  intros Hc Hf Hlen. unfold main. rewrite Hc, Hf.
  assert (Hne : extract_text_from_pdf f <> [])
    by (intros E; rewrite E in Hlen; cbn in Hlen; lia).
  assert (Ht : truthy (extract_text_from_pdf f) = true)
    by (destruct (extract_text_from_pdf f); [contradiction | reflexivity]).
  rewrite Ht. cbn [andb].
  destruct (Z.gtb_spec (len (extract_text_from_pdf f)) 100); [|lia].
  pose proof (extract_text_has_word f Hne) as Hw.
  rewrite (split_text_windows _ default_chunk_size default_overlap
             ltac:(reflexivity) Hw).
  eexists. split; [reflexivity|]. cbn [processed chunks shows_analysis].
  pose proof (ceil_div_pos (len (split (extract_text_from_pdf f))) 700
                (len_pos _ Hw) ltac:(lia)) as Hk.
  change (default_chunk_size - default_overlap) with 700.
  split; [reflexivity|]. split.
  - destruct (Z.to_nat _) eqn:Ek; [lia | reflexivity].
  - unfold len at 1. rewrite windows_length. lia.
Qed.

Lemma processing_stores_chunks_witness :
  clicked process_one_page = Process_Paper /\
  uploaded_file process_one_page = Some one_page_pdf /\
  100 < len (extract_text_from_pdf one_page_pdf) /\
  exists st',
    main initial_session process_one_page = Some st' /\
    processed st' = true /\
    shows_analysis st' = true /\
    len (chunks st')
    = ceil_div (len (split (extract_text_from_pdf one_page_pdf))) 700.
Proof.
  split; [reflexivity|]. split; [reflexivity|]. split; [reflexivity|].
  apply (processing_stores_chunks initial_session process_one_page
           one_page_pdf); reflexivity.
Defined.

(** X19. In every state a session can reach, the analysis tabs are
    shown exactly when a paper was processed: the second half of the
    test that opens them never decides. *)
Theorem analysis_shown_iff_processed (acts : list action)
    (st : session_state) :
  run_session initial_session acts = Some st ->
  shows_analysis st = processed st.
Proof.
  intros Hrun.
  destruct (run_session_keeps_invariant acts initial_session)
    as (st' & Hrun' & Hinv); [intros H; discriminate|].
  rewrite Hrun in Hrun'. injection Hrun' as <-.
  unfold shows_analysis. unfold session_invariant in Hinv.
  destruct (processed st); [|reflexivity].
  destruct (chunks st); [contradiction (Hinv eq_refl) |]; reflexivity.
Qed.

Lemma analysis_shown_iff_processed_witness :
  run_session initial_session [process_broken; process_one_page]
  = Some one_page_session /\
  shows_analysis one_page_session = processed one_page_session.
Proof.
  split; [vm_compute; reflexivity|].
  apply (analysis_shown_iff_processed [process_broken; process_one_page]
           one_page_session).
  vm_compute. reflexivity.
Defined.

Lemma main_chunk_sizes st a st' :
  main st a = Some st' ->
  Forall (fun c => len (split c) <= default_chunk_size) (chunks st) ->
  Forall (fun c => len (split c) <= default_chunk_size) (chunks st').
Proof.
  intros Hrun Hst.
  assert (Hr : Forall (fun c => len (split c) <= default_chunk_size)
                 (chunks (refresh_model_ready st a)))
    by (rewrite (proj1 (refresh_model_ready_chunks st a)); exact Hst).
  unfold main in Hrun.
  destruct (clicked a); try (injection Hrun as <-; exact Hr).
  destruct (uploaded_file a) as [f|]; [|injection Hrun as <-; exact Hr].
  destruct (truthy _ && _); [|injection Hrun as <-; exact Hr].
  destruct (split_text_shape (extract_text_from_pdf f)
              default_chunk_size default_overlap
              ltac:(unfold default_chunk_size, default_overlap; lia))
    as (cs & Hcs & _ & _ & Hnth).
  rewrite Hcs in Hrun. injection Hrun as <-. cbn [chunks].
  apply Forall_forall. intros c Hin.
  destruct (In_nth_error _ _ Hin) as [j Hj].
  destruct (Hnth j c Hj) as [_ Hsplit].
  rewrite Hsplit. unfold len. rewrite length_firstn.
  change default_chunk_size with 800. lia.
Qed.

Lemma run_session_chunk_sizes acts :
  forall st st',
    run_session st acts = Some st' ->
    Forall (fun c => len (split c) <= default_chunk_size) (chunks st) ->
    Forall (fun c => len (split c) <= default_chunk_size) (chunks st').
Proof.
  induction acts as [|a acts IH]; intros st st' Hrun Hst;
    cbn [run_session] in Hrun.
  - injection Hrun as <-. exact Hst.
  - destruct (main st a) as [st1|] eqn:E; [|discriminate].
    exact (IH st1 st' Hrun (main_chunk_sizes st a st1 E Hst)).
Qed.

(** The blank line between two chunks of a context separates their
    words. *)
Lemma split_join_blank_line (cs : list pystr) :
  split (join [newline; newline] cs) = concat (map split cs).
Proof.
  induction cs as [|c cs IH]; [reflexivity|].
  destruct cs as [|c' cs].
  - cbn [join map concat]. rewrite app_nil_r. reflexivity.
  - change (join [newline; newline] (c :: c' :: cs))
      with (c ++ newline :: ([] ++ newline :: join [newline; newline] (c' :: cs))).
    rewrite !split_app_space by reflexivity.
    rewrite IH. reflexivity.
Qed.

Lemma concat_split_bound (cs : list pystr) :
  Forall (fun c => len (split c) <= default_chunk_size) cs ->
  len (concat (map split cs)) <= default_chunk_size * len cs.
Proof.
  induction 1 as [|c cs Hc _ IH]; [reflexivity|].
  cbn [map concat]. unfold len in *. rewrite length_app.
  cbn [length]. lia.
Qed.

(** X20. In every state a session can reach, the context built from
    the first [k] chunks holds exactly the words of these chunks, and so
    at most [800 * k] words: 2400 for a question, 4000 for a summary,
    3200 for a quiz, however long the paper is. *)
Theorem analysis_context_bounded (acts : list action) (st : session_state)
    (k : Z) :
  run_session initial_session acts = Some st ->
  0 <= k ->
  split (analysis_context k (chunks st))
  = concat (map split (firstn (Z.to_nat k) (chunks st))) /\
  len (split (analysis_context k (chunks st))) <= default_chunk_size * k.
Proof.
  intros Hrun Hk.
  pose proof (run_session_chunk_sizes acts initial_session st Hrun
                (Forall_nil _)) as Hsizes.
  assert (Hslice : slice (chunks st) 0 k = firstn (Z.to_nat k) (chunks st)).
  { change k with (0 + k) at 1.
    rewrite slice_firstn_skipn by lia. reflexivity. }
  unfold analysis_context. rewrite Hslice, split_join_blank_line.
  split; [reflexivity|].
  pose proof (concat_split_bound _
                (Forall_firstn _ (Z.to_nat k) _ Hsizes)) as Hb.
  unfold len in *. rewrite length_firstn in Hb.
  change default_chunk_size with 800 in *. lia.
Qed.

Lemma analysis_context_bounded_witness :
  run_session initial_session [process_one_page] = Some one_page_session /\
  0 <= 3 /\
  split (analysis_context 3 (chunks one_page_session))
  = concat (map split (firstn (Z.to_nat 3) (chunks one_page_session))) /\
  len (split (analysis_context 3 (chunks one_page_session)))
  <= default_chunk_size * 3.
Proof.
  split; [vm_compute; reflexivity|]. split; [lia|].
  apply (analysis_context_bounded [process_one_page] one_page_session 3);
    [vm_compute; reflexivity | lia].
Defined.

(** X21. When the whole text fits into one window, the first chunk
    already holds all of it, and the loop still goes on to
    [ceil(n / (chunk_size - overlap))] chunks: chunk [j] only repeats the
    text from word [j * (chunk_size - overlap)] to its end. *)
Theorem text_within_window_repeats (text : pystr) (w o : nat) :
  (o < w)%nat -> (length (split text) <= w)%nat ->
  exists chunks,
    split_text text (Z.of_nat w) (Z.of_nat o) = Some chunks /\
    len chunks = ceil_div (len (split text)) (Z.of_nat w - Z.of_nat o) /\
    forall (j : nat) c, nth_error chunks j = Some c ->
      split c = skipn (j * (w - o)) (split text).
Proof.
  intros Ho Hfit.
  destruct (split_text_shape text (Z.of_nat w) (Z.of_nat o) ltac:(lia))
    as (chunks & Hrun & Hcount & _ & Hnth).
  exists chunks. split; [exact Hrun|]. split; [exact Hcount|].
  intros j c Hc. destruct (Hnth j c Hc) as [_ Hsplit].
  rewrite Hsplit, Nat2Z.id.
  replace (Z.to_nat (Z.of_nat w - Z.of_nat o)) with (w - o)%nat by lia.
  apply firstn_all2. rewrite length_skipn. lia.
Qed.

Lemma text_within_window_repeats_witness :
  (1 < 4)%nat /\ (length (split (lit "a b c d")) <= 4)%nat /\
  exists chunks,
    split_text (lit "a b c d") (Z.of_nat 4) (Z.of_nat 1) = Some chunks /\
    len chunks
    = ceil_div (len (split (lit "a b c d"))) (Z.of_nat 4 - Z.of_nat 1) /\
    forall (j : nat) c, nth_error chunks j = Some c ->
      split c = skipn (j * (4 - 1)) (split (lit "a b c d")).
Proof.
  split; [lia|]. split; [vm_compute; lia|].
  apply (text_within_window_repeats (lit "a b c d") 4 1);
    [lia | vm_compute; lia].
Defined.
